(** * Feed merger of the seaweed-station dashboard

    Shallow embedding of the merge performed by [debug_parse.py]
    (lines 23-97): the value parser [num_parse], the minute key
    [round_min], the ingestion of the temperature feed (packed CSV and
    legacy layouts), the ingestion of the humidity feed, and the
    fill-and-sort that ends the merge.

    Python exceptions are explicit: every operation that can raise
    returns a [res], [try]/[except] is [try_except] or a match on the
    result, and the theorems show which exceptions never escape. *)

From Stdlib Require Import ZArith String Ascii List Lia Bool.
From Stdlib Require Import Sorting.Sorted Sorting.Permutation DecimalString.
From Stdlib Require Import Floats.PrimFloat Numbers.Cyclic.Int63.Uint63.
From stdpp Require Import base option list strings gmap.

Local Open Scope string_scope.
Local Open Scope Z_scope.

(** ** Python values and exceptions *)

(** What a slot of a reading holds: [created_at] and [field1] to
    [field5] are strings or null (a missing key is a missing binding
    of the dict).  [JNull] is Python's [None]. *)
Inductive jval : Type :=
  | JNull
  | JStr (s : string).

(** A reading is a Python [dict] from field names to values. *)
Abbreviation reading := (gmap string jval).

Inductive exn : Type :=
  | ValueError
  | AttributeError
  | TypeError
  | IndexError
  | KeyError.

Inductive res (A : Type) : Type :=
  | Ok (a : A)
  | Raise (x : exn).
Arguments Ok {A} a.
Arguments Raise {A} x.

#[global] Instance res_ret : MRet res := λ A a, Ok a.
#[global] Instance res_bind : MBind res := λ A B f m,
  match m with
  | Ok a => f a
  | Raise x => Raise x
  end.

(** [try: m except: h] with a bare [except]. *)
Definition try_except {A} (m : res A) (h : res A) : res A :=
  match m with
  | Ok a => Ok a
  | Raise _ => h
  end.

(** [for x in l: st = body st x] *)
Fixpoint for_each {A S} (l : list A) (body : S → A → res S) (st : S) : res S :=
  match l with
  | [] => Ok st
  | x :: l' => st' ← body st x; for_each l' body st'
  end.

(** [v is not None] *)
Definition not_none {A} (v : option A) : bool :=
  match v with
  | Some _ => true
  | None => false
  end.

(** [range(1, n + 1)] *)
Definition py_range1 (n : nat) : list nat := seq 1 n.

(** ** Strings *)

(** [c in s] for a one-character [c] *)
Fixpoint str_contains (c : ascii) (s : string) : bool :=
  match s with
  | EmptyString => false
  | String a s' => if Ascii.eqb a c then true else str_contains c s'
  end.

(** [s.split(c)] for a one-character separator: never the empty list. *)
Fixpoint str_split (c : ascii) (s : string) : list string :=
  match s with
  | EmptyString => [EmptyString]
  | String a s' =>
      if Ascii.eqb a c then EmptyString :: str_split c s'
      else match str_split c s' with
           | p :: ps => String a p :: ps
           | [] => [String a EmptyString]
           end
  end.

(** [s.replace(c, r)] for a one-character [c] *)
Fixpoint str_replace (c : ascii) (r : string) (s : string) : string :=
  match s with
  | EmptyString => EmptyString
  | String a s' =>
      if Ascii.eqb a c then r ++ str_replace c r s'
      else String a (str_replace c r s')
  end.

(** [str(s)] of a non-negative int, as an f-string prints it *)
Definition str_of_nat (s : nat) : string :=
  NilEmpty.string_of_uint (Nat.to_uint s).

(** [f'field{s}'] *)
Definition field_key (s : nat) : string := "field" ++ str_of_nat s.

(** [f.get(k)]: [None] when the key is missing *)
Definition py_get (f : reading) (k : string) : jval :=
  default JNull (f !! k).

(** [f.get(k, d)] *)
Definition py_get_default (f : reading) (k : string) (d : jval) : jval :=
  default d (f !! k).

(** [v.replace('Z', '+00:00')]: [None] has no such method. *)
Definition jval_replace_Z (v : jval) : res string :=
  match v with
  | JStr s => Ok (str_replace "Z"%char "+00:00" s)
  | JNull => Raise AttributeError
  end.

(** [v.split(',')] *)
Definition jval_split (v : jval) : res (list string) :=
  match v with
  | JStr s => Ok (str_split ","%char s)
  | JNull => Raise AttributeError
  end.

(** [v or ''] *)
Definition jval_or_empty (v : jval) : jval :=
  match v with
  | JStr EmptyString => JStr ""
  | JStr s => JStr s
  | JNull => JStr ""
  end.

(** [l[i]] for [0 <= i] *)
Definition py_index {A} (l : list A) (i : nat) : res A :=
  match l !! i with
  | Some x => Ok x
  | None => Raise IndexError
  end.

(** ** The Python runtime the script calls into

    [float], [datetime.fromisoformat], [datetime.timestamp], float
    division and [round] are not code of the repository.  The merge is
    verified for every behaviour of them.

    Timestamps are the aware datetimes that a [created_at] with a [Z]
    or an offset parses to: [timestamp()] is total on them and [<]
    compares their instants, here [dt_instant] in microseconds.  A
    [created_at] without offset would parse to a naive datetime, whose
    [timestamp()] depends on the time zone of the machine and which
    [<] refuses to compare with an aware one; the feeds carry none. *)
Class PyBuiltins : Type := {
  pyfloat : Type;
  (** [float(s)] on a string; [None] when it raises [ValueError] *)
  float_of_str : string → option pyfloat;
  (** [x == 0] *)
  float_is_zero : pyfloat → bool;
  datetime : Type;
  (** [datetime.fromisoformat(s)]; [None] when it raises [ValueError] *)
  fromisoformat : string → option datetime;
  (** [ts.timestamp()] *)
  dt_timestamp : datetime → pyfloat;
  (** [x / k] for an int [k] *)
  float_div_int : pyfloat → Z → pyfloat;
  (** [round(x)] *)
  py_round : pyfloat → Z;
  (** the instant [ts1 < ts2] compares *)
  dt_instant : datetime → Z;
}.

Section Merge.
Context {B : PyBuiltins}.

(** [float(v)] *)
Definition py_float (v : jval) : res pyfloat :=
  match v with
  | JStr s =>
      match float_of_str s with
      | Some x => Ok x
      | None => Raise ValueError
      end
  | JNull => Raise TypeError
  end.

(** [datetime.fromisoformat(s)] *)
Definition py_fromisoformat (s : string) : res datetime :=
  match fromisoformat s with
  | Some ts => Ok ts
  | None => Raise ValueError
  end.

(** [v is None or v == '' or v == 'null' or v == 'None'] *)
Definition is_null_token (v : jval) : bool :=
  match v with
  | JNull => true
  | JStr s => String.eqb s "" || String.eqb s "null" || String.eqb s "None"
  end.

(** [num_parse] (lines 23-30) *)
Definition num_parse (v : jval) : res (option pyfloat) :=
  if is_null_token v then Ok None
  else try_except (n ← py_float v; Ok (Some n)) (Ok None).

(** [round_min] (lines 32-33) *)
Definition round_min (ts : datetime) : Z :=
  py_round (float_div_int (dt_timestamp ts) 60).

(** ** Merged records

    A record is the dict [e]: the key ['timestamp'] and, per sensor
    [s], the keys [f't{s}'], [f'rh{s}'] and [f'ok{s}'].  The three
    families of keys never collide, so each is a map from [s]; a key
    that is not in the dict is a missing binding, and a [t] or [rh]
    bound to [None] is [Some None]. *)
Record entry : Type := Entry {
  timestamp : datetime;
  e_t : gmap nat (option pyfloat);
  e_rh : gmap nat (option pyfloat);
  e_ok : gmap nat Z;
}.

(** [{'timestamp': ts}] *)
Definition new_entry (ts : datetime) : entry :=
  {| timestamp := ts; e_t := ∅; e_rh := ∅; e_ok := ∅ |}.

(** [e[f't{s}'] = v] *)
Definition set_t (s : nat) (v : option pyfloat) (e : entry) : entry :=
  {| timestamp := timestamp e; e_t := <[s := v]> (e_t e);
     e_rh := e_rh e; e_ok := e_ok e |}.

(** [e[f'rh{s}'] = v] *)
Definition set_rh (s : nat) (v : option pyfloat) (e : entry) : entry :=
  {| timestamp := timestamp e; e_t := e_t e;
     e_rh := <[s := v]> (e_rh e); e_ok := e_ok e |}.

(** [e[f'ok{s}'] = v] *)
Definition set_ok (s : nat) (v : Z) (e : entry) : entry :=
  {| timestamp := timestamp e; e_t := e_t e;
     e_rh := e_rh e; e_ok := <[s := v]> (e_ok e) |}.

(** [f'ok{s}' not in e] *)
Definition ok_missing (s : nat) (e : entry) : bool :=
  match e_ok e !! s with
  | None => true
  | Some _ => false
  end.

(** ** The key mapping [entries]

    A Python dict iterates in insertion order and keeps the place of a
    key that is assigned again: an association list with unique keys. *)
Abbreviation keymap := (list (Z * entry)).

(** [d[k]] *)
Fixpoint dict_get (d : keymap) (k : Z) : res entry :=
  match d with
  | [] => Raise KeyError
  | (k', e) :: d' => if Z.eqb k' k then Ok e else dict_get d' k
  end.

(** [k in d] *)
Definition dict_has (d : keymap) (k : Z) : bool :=
  match dict_get d k with
  | Ok _ => true
  | Raise _ => false
  end.

(** [d[k] = e] *)
Fixpoint dict_set (d : keymap) (k : Z) (e : entry) : keymap :=
  match d with
  | [] => [(k, e)]
  | (k', e') :: d' =>
      if Z.eqb k' k then (k, e) :: d' else (k', e') :: dict_set d' k e
  end.

(** [d.values()] *)
Definition dict_values (d : keymap) : list entry := map snd d.

(** ** Temperature feed (lines 38-69) *)

(** Lines 40-44: the [try] block; a [Raise] is the [continue]. *)
Definition parse_created_at (f : reading) : res datetime :=
  let ts_str := py_get_default f "created_at" (JStr "") in
  s ← jval_replace_Z ts_str;
  py_fromisoformat s.

(** Line 52: [field2 and isinstance(field2, str) and ',' in field2] *)
Definition csv_detect (field2 : jval) : bool :=
  match field2 with
  | JNull => false
  | JStr s => negb (String.eqb s "") && str_contains ","%char s
  end.

(** Lines 57-58: [num_parse(parts[s-1]) if (s-1 < len(parts)) else None] *)
Definition csv_part (parts : list string) (s : nat) : res (option pyfloat) :=
  if bool_decide (s - 1 < length parts)%nat
  then p ← py_index parts (s - 1)%nat; num_parse (JStr p)
  else Ok None.

(** Lines 57-62: one turn of the packed-CSV loop *)
Definition csv_sensor (tParts rhParts : list string) (e : entry) (s : nat)
  : res entry :=
  tv ← csv_part tParts s;
  hv ← csv_part rhParts s;
  let e := set_t s tv e in
  let e := set_rh s hv e in
  if ok_missing s e
  then Ok (set_ok s (if not_none tv || not_none hv then 1 else 0) e)
  else Ok e.

(** [val is not None and val != 0] (lines 69 and 85) *)
Definition present_nonzero (val : option pyfloat) : bool :=
  match val with
  | Some x => negb (float_is_zero x)
  | None => false
  end.

(** Lines 66-69: one turn of the legacy loop *)
Definition legacy_sensor (f : reading) (e : entry) (s : nat) : res entry :=
  val ← num_parse (py_get f (field_key s));
  let e := set_t s val e in
  if ok_missing s e
  then Ok (set_ok s (if present_nonzero val then 1 else 0) e)
  else Ok e.

(** Lines 50-69: what one temperature reading does to its record *)
Definition temp_record (SENSOR_COUNT : nat) (f : reading) (e : entry)
  : res entry :=
  let field2 := py_get f "field2" in
  if csv_detect field2 then
    tParts ← jval_split field2;
    rhParts ← jval_split (jval_or_empty (py_get f "field3"));
    for_each (py_range1 SENSOR_COUNT) (csv_sensor tParts rhParts) e
  else
    for_each (py_range1 (Nat.min SENSOR_COUNT 8)) (legacy_sensor f) e.

(** Lines 45-48 and 78-81: the record of [key], created when missing.
    [e] is the object stored in [entries], so what the loops do to it
    is written back under the same key. *)
Definition with_record (entries : keymap) (ts : datetime)
    (body : entry → res entry) : res keymap :=
  let key := round_min ts in
  let entries :=
    if negb (dict_has entries key)
    then dict_set entries key (new_entry ts)
    else entries in
  e ← dict_get entries key;
  e' ← body e;
  Ok (dict_set entries key e').

(** Lines 39-69: one turn of the loop over [tempFeeds] *)
Definition ingest_temp (SENSOR_COUNT : nat) (entries : keymap) (f : reading)
  : res keymap :=
  match parse_created_at f with
  | Raise _ => Ok entries
  | Ok ts => with_record entries ts (temp_record SENSOR_COUNT f)
  end.

(** ** Humidity feed (lines 71-86) *)

(** Lines 83-86: one turn of the loop over the sensors *)
Definition hum_sensor (f : reading) (e : entry) (s : nat) : res entry :=
  val ← num_parse (py_get f (field_key s));
  let e := set_rh s val e in
  if present_nonzero val then Ok (set_ok s 1 e) else Ok e.

(** Lines 82-86 *)
Definition hum_record (SENSOR_COUNT : nat) (f : reading) (e : entry)
  : res entry :=
  for_each (py_range1 (Nat.min SENSOR_COUNT 8)) (hum_sensor f) e.

(** Lines 72-86: one turn of the loop over [humFeeds] *)
Definition ingest_hum (SENSOR_COUNT : nat) (entries : keymap) (f : reading)
  : res keymap :=
  match parse_created_at f with
  | Raise _ => Ok entries
  | Ok ts => with_record entries ts (hum_record SENSOR_COUNT f)
  end.

(** [if feed: for f in feed: ...] *)
Definition ingest_feed (step : keymap → reading → res keymap)
    (feed : list reading) (entries : keymap) : res keymap :=
  match feed with
  | [] => Ok entries
  | _ :: _ => for_each feed step entries
  end.

(** Lines 36-86: both feeds, from the empty mapping *)
Definition ingest (SENSOR_COUNT : nat) (tempFeeds humFeeds : list reading)
  : res keymap :=
  entries ← ingest_feed (ingest_temp SENSOR_COUNT) tempFeeds [];
  ingest_feed (ingest_hum SENSOR_COUNT) humFeeds entries.

(** ** Fill and sort (lines 89-97) *)

(** Lines 92-94 *)
Definition fill_sensor (e : entry) (s : nat) : entry :=
  let e := match e_t e !! s with None => set_t s None e | Some _ => e end in
  let e := match e_rh e !! s with None => set_rh s None e | Some _ => e end in
  match e_ok e !! s with None => set_ok s 0 e | Some _ => e end.

(** Lines 91-94 *)
Definition fill (SENSOR_COUNT : nat) (e : entry) : entry :=
  foldl fill_sensor e (py_range1 SENSOR_COUNT).

(** Lines 89-95: [all_entries], in the order of [entries.values()] *)
Definition fill_all (SENSOR_COUNT : nat) (entries : keymap) : list entry :=
  map (fill SENSOR_COUNT) (dict_values entries).

(** [a < b] on the sort keys *)
Definition ts_lt (a b : entry) : bool :=
  dt_instant (timestamp a) <? dt_instant (timestamp b).

(** [list.sort] is stable and compares keys with [<] only.  [sort_insert]
    puts [x], which stood before every element of [l], in front of the
    first element that is not smaller. *)
Fixpoint sort_insert (x : entry) (l : list entry) : list entry :=
  match l with
  | [] => [x]
  | y :: l' => if ts_lt y x then y :: sort_insert x l' else x :: y :: l'
  end.

(** Line 97: [all_entries.sort(key=lambda e: e['timestamp'])] *)
Definition sort_by_timestamp (l : list entry) : list entry :=
  foldr sort_insert [] l.

(** Lines 36-97: the merge *)
Definition parseThingSpeakMerge (SENSOR_COUNT : nat)
    (tempFeeds humFeeds : list reading) : res (list entry) :=
  entries ← ingest SENSOR_COUNT tempFeeds humFeeds;
  Ok (sort_by_timestamp (fill_all SENSOR_COUNT entries)).

(** ** Vocabulary of the statements *)

(** What a record holds for sensor [s]: [t], [rh] and [ok], each
    [None] while its key is not in the dict. *)
Definition slot (e : entry) (s : nat)
  : option (option pyfloat) * option (option pyfloat) * option Z :=
  (e_t e !! s, e_rh e !! s, e_ok e !! s).

(** What the packed-CSV turn for [s] makes of the slot of [s] *)
Definition csv_turn (tParts rhParts : list string) (s : nat)
    (before after : option (option pyfloat) * option (option pyfloat) * option Z)
  : Prop :=
  ∃ tv hv, csv_part tParts s = Ok tv ∧ csv_part rhParts s = Ok hv ∧
    after = (Some tv, Some hv,
             Some (match before.2 with
                   | Some v => v
                   | None => if not_none tv || not_none hv then 1 else 0
                   end)).

(** What the legacy turn for [s] makes of the slot of [s] *)
Definition legacy_turn (f : reading) (s : nat)
    (before after : option (option pyfloat) * option (option pyfloat) * option Z)
  : Prop :=
  ∃ val, num_parse (py_get f (field_key s)) = Ok val ∧
    after = (Some val, before.1.2,
             Some (match before.2 with
                   | Some v => v
                   | None => if present_nonzero val then 1 else 0
                   end)).

(** What the humidity turn for [s] makes of the slot of [s] *)
Definition hum_turn (f : reading) (s : nat)
    (before after : option (option pyfloat) * option (option pyfloat) * option Z)
  : Prop :=
  ∃ val, num_parse (py_get f (field_key s)) = Ok val ∧
    after = (before.1.1, Some val,
             if present_nonzero val then Some 1 else before.2).

(** What lines 92-94 make of the slot of [s] *)
Definition fill_turn (s : nat)
    (before after : option (option pyfloat) * option (option pyfloat) * option Z)
  : Prop :=
  after = (Some (default None before.1.1), Some (default None before.1.2),
           Some (default 0 before.2)).

(** The records of [l] whose timestamp is the instant [u] *)
Definition at_instant (u : Z) (l : list entry) : list entry :=
  List.filter (λ e, dt_instant (timestamp e) =? u) l.

(** A loop body that returns, keeps the timestamp, leaves the other
    sensors alone and relates the slot of its sensor by [Q] *)
Definition turn_of (body : entry → nat → res entry)
    (Q : nat → option (option pyfloat) * option (option pyfloat) * option Z →
         option (option pyfloat) * option (option pyfloat) * option Z → Prop)
  : Prop :=
  ∀ e s, ∃ e', body e s = Ok e' ∧ timestamp e' = timestamp e ∧
    (∀ s', s' ≠ s → slot e' s' = slot e s') ∧ Q s (slot e s) (slot e' s).

(** The record stored under the key of [ts], or the fresh one that
    lines 47 and 80 make. *)
Definition record_before (entries : keymap) (ts : datetime) : entry :=
  match dict_get entries (round_min ts) with
  | Ok e => e
  | Raise _ => new_entry ts
  end.

(** The keys of the readings of a feed whose timestamp parses. *)
Definition feed_keys (feed : list reading) : list Z :=
  omap (λ f, match parse_created_at f with
             | Ok ts => Some (round_min ts)
             | Raise _ => None
             end) feed.

(** A key joins the keys seen so far at the end, once. *)
Definition see (acc : list Z) (k : Z) : list Z :=
  if bool_decide (k ∈ acc) then acc else (acc ++ [k])%list.

(** First occurrences, in order. *)
Definition first_seen (ks : list Z) : list Z := foldl see [] ks.

(** Every record is stored under the key of its own timestamp and has
    nothing for a sensor outside [1..n]. *)
Definition well_keyed (n : nat) (d : keymap) : Prop :=
  ∀ k e, (k, e) ∈ d →
    k = round_min (timestamp e) ∧
    ∀ s, ¬ (1 ≤ s ≤ n)%nat → slot e s = (None, None, None).

(** The [try] of lines 41-44 falls through to line 45. *)
Definition stamped (f : reading) : bool :=
  match parse_created_at f with
  | Ok _ => true
  | Raise _ => false
  end.

(** The readings of a feed whose timestamp parses. *)
Definition well_stamped (feed : list reading) : list reading :=
  List.filter stamped feed.

(** A turn of either feed loop: it returns, and the keys grow by the
    key of the reading when its timestamp parses. *)
Definition feed_step (n : nat) (step : keymap → reading → res keymap) : Prop :=
  ∀ es f, well_keyed n es →
    ∃ es', step es f = Ok es' ∧ well_keyed n es' ∧
      es'.*1 = foldl see es.*1 (feed_keys [f]) ∧
      (stamped f = false → es' = es).

(** Non-decreasing timestamps *)
Definition ts_le (a b : entry) : Prop :=
  dt_instant (timestamp a) ≤ dt_instant (timestamp b).

End Merge.

Abbreviation keymap := (list (Z * entry)).

(** [SENSOR_COUNT] (line 16) *)
Definition SENSOR_COUNT : nat := 5.

(** ** A runtime to run the merge on

    [CPython] instantiates the runtime with binary64 floats and with
    datetimes as an instant in microseconds and an offset in seconds.
    It covers a fragment of what the interpreter reads: decimal
    literals of at most 15 digits without exponent, which one division
    by a power of ten rounds as [float] does, and timestamps written in
    full with an offset, [YYYY-MM-DDTHH:MM:SS+HH:MM].  On these it
    returns what the interpreter returns; any other string it rejects,
    so the samples below stay inside the fragment. *)
Module CPython.

Definition float_of_Z (z : Z) : float :=
  if z <? 0 then PrimFloat.opp (PrimFloat.of_uint63 (Uint63.of_Z (- z)))
  else PrimFloat.of_uint63 (Uint63.of_Z z).

Definition digit_of (c : ascii) : option Z :=
  let n := Z.of_nat (nat_of_ascii c) in
  if (48 <=? n) && (n <=? 57) then Some (n - 48) else None.

(** The digits at the head of [s]: their value after [acc], how many
    they are, and what follows. *)
Fixpoint read_digits (s : string) (acc : Z) (cnt : nat) : Z * nat * string :=
  match s with
  | EmptyString => (acc, cnt, s)
  | String c s' =>
      match digit_of c with
      | Some d => read_digits s' (10 * acc + d) (S cnt)
      | None => (acc, cnt, s)
      end
  end.

Definition float_of_str (s : string) : option float :=
  let '(neg, s1) :=
    match s with
    | String "-" r => (true, r)
    | String "+" r => (false, r)
    | _ => (false, s)
    end in
  let '(m1, n1, s2) := read_digits s1 0 0 in
  let '(m, nfrac, s3) :=
    match s2 with
    | String "." r => read_digits r m1 0
    | _ => (m1, 0%nat, s2)
    end in
  if String.eqb s3 "" && negb (Nat.eqb (n1 + nfrac) 0) && (n1 + nfrac <=? 15)%nat
  then
    let x := PrimFloat.div (float_of_Z m) (float_of_Z (10 ^ Z.of_nat nfrac)) in
    Some (if neg then PrimFloat.opp x else x)
  else None.

Definition float_is_zero (x : float) : bool := PrimFloat.eqb x 0%float.

Record datetime : Type := Datetime {
  dt_micros : Z;
  dt_utcoffset : Z;
}.

(** Exactly [n] digits *)
Fixpoint take_digits (n : nat) (s : string) (acc : Z) : option (Z * string) :=
  match n with
  | O => Some (acc, s)
  | S n' =>
      match s with
      | EmptyString => None
      | String c s' =>
          match digit_of c with
          | Some d => take_digits n' s' (10 * acc + d)
          | None => None
          end
      end
  end.

Definition expect (c : ascii) (s : string) : option string :=
  match s with
  | String a s' => if Ascii.eqb a c then Some s' else None
  | EmptyString => None
  end.

Definition is_leap (y : Z) : bool :=
  (y mod 4 =? 0) && (negb (y mod 100 =? 0) || (y mod 400 =? 0)).

Definition days_in_month (y m : Z) : Z :=
  if m =? 2 then (if is_leap y then 29 else 28)
  else if (m =? 4) || (m =? 6) || (m =? 9) || (m =? 11) then 30
  else 31.

(** Days from 1970-01-01 to the civil date *)
Definition days_from_civil (y m d : Z) : Z :=
  let y' := if m <=? 2 then y - 1 else y in
  let era := y' / 400 in
  let yoe := y' - era * 400 in
  let doy := (153 * (if 2 <? m then m - 3 else m + 9) + 2) / 5 + d - 1 in
  let doe := yoe * 365 + yoe / 4 - yoe / 100 + doy in
  era * 146097 + doe - 719468.

Definition fromisoformat (s : string) : option datetime :=
  '(y, s) ← take_digits 4 s 0;
  s ← expect "-" s;
  '(mo, s) ← take_digits 2 s 0;
  s ← expect "-" s;
  '(d, s) ← take_digits 2 s 0;
  s ← expect "T" s;
  '(h, s) ← take_digits 2 s 0;
  s ← expect ":" s;
  '(mi, s) ← take_digits 2 s 0;
  s ← expect ":" s;
  '(sec, s) ← take_digits 2 s 0;
  '(sign, s) ← match s with
                | String "+" r => Some (1, r)
                | String "-" r => Some (-1, r)
                | _ => None
                end;
  '(oh, s) ← take_digits 2 s 0;
  s ← expect ":" s;
  '(om, s) ← take_digits 2 s 0;
  if String.eqb s "" && (1 <=? y) && (1 <=? mo) && (mo <=? 12) && (1 <=? d)
     && (d <=? days_in_month y mo) && (h <=? 23) && (mi <=? 59)
     && (sec <=? 59) && (oh <=? 23) && (om <=? 59)
  then
    let off := sign * (oh * 3600 + om * 60) in
    let local := days_from_civil y mo d * 86400 + h * 3600 + mi * 60 + sec in
    Some {| dt_micros := (local - off) * 1000000; dt_utcoffset := off |}
  else None.

Definition dt_timestamp (ts : datetime) : float :=
  PrimFloat.div (float_of_Z (dt_micros ts)) (float_of_Z 1000000).

Definition float_div_int (x : float) (k : Z) : float :=
  PrimFloat.div x (float_of_Z k).

(** Round half to even *)
Definition py_round (x : float) : Z :=
  let (m, e) := PrimFloat.frshiftexp (PrimFloat.abs x) in
  let M := Uint63.to_Z (PrimFloat.normfr_mantissa m) in
  let E := Uint63.to_Z e - 2101 - 53 in
  let n :=
    if 0 <=? E then M * 2 ^ E
    else
      let d := 2 ^ (- E) in
      let q := M / d in
      let r := M mod d in
      if 2 * r <? d then q
      else if d <? 2 * r then q + 1
      else if Z.even q then q else q + 1 in
  if PrimFloat.ltb x 0%float then - n else n.

#[global] Instance runtime : PyBuiltins :=
  Build_PyBuiltins float float_of_str float_is_zero datetime fromisoformat
    dt_timestamp float_div_int py_round dt_micros.

End CPython.

(** [l[0]] *)
Definition head_of {A} (l : list A) : res A := py_index l 0.

(** ** Sample feeds *)

(** A reading from its items *)
Definition reading_of (items : list (string * jval)) : reading :=
  list_to_map items.

(** The packed reading of the end-to-end example *)
Definition packed_reading : reading :=
  reading_of [("created_at", JStr "2026-02-25T10:00:00Z");
              ("field2", JStr "21.5,22.0"); ("field3", JStr "40,41")].

(** A packed reading that holds no value: [field2] is a lone comma. *)
Definition blank_packed_reading : reading :=
  reading_of [("created_at", JStr "2026-02-25T10:00:00Z");
              ("field2", JStr ",")].

(** A packed reading with a humidity and no temperature for sensor 1 *)
Definition half_packed_reading : reading :=
  reading_of [("created_at", JStr "2026-02-25T10:00:00Z");
              ("field2", JStr ",22.0"); ("field3", JStr "40,41")].

(** The legacy reading of the second end-to-end example *)
Definition zero_legacy_reading : reading :=
  reading_of [("created_at", JStr "2026-02-25T10:00:00Z");
              ("field1", JStr "0")].

(** A humidity reading of the same minute: a value, a zero, a null *)
Definition humidity_reading : reading :=
  reading_of [("created_at", JStr "2026-02-25T10:00:20Z");
              ("field1", JStr "55.5"); ("field2", JStr "0");
              ("field3", JNull)].

(** A humidity reading of the same minute with no field at all *)
Definition bare_humidity_reading : reading :=
  reading_of [("created_at", JStr "2026-02-25T10:00:20Z")].

(** 2026-02-25T10:00:00Z and twenty seconds later *)
Definition stamp_10_00_00 : @datetime CPython.runtime :=
  CPython.Datetime 1772013600000000 0.

Definition stamp_10_00_20 : @datetime CPython.runtime :=
  CPython.Datetime 1772013620000000 0.

(** ** More vocabulary for the merge *)

Section MergeVocabulary.
Context {B : PyBuiltins}.

(** The turn both feed loops share (lines 40-48 and 73-81), with the
    loop over the sensors as [body] *)
Definition ingest_with (body : reading → entry → res entry)
    (entries : keymap) (f : reading) : res keymap :=
  match parse_created_at f with
  | Raise _ => Ok entries
  | Ok ts => with_record entries ts (body f)
  end.

(** The parsed timestamp of the first reading of [feed] that falls
    under the key [k] *)
Fixpoint first_stamp (k : Z) (feed : list reading) : option datetime :=
  match feed with
  | [] => None
  | f :: feed' =>
      match parse_created_at f with
      | Ok ts => if Z.eqb (round_min ts) k then Some ts else first_stamp k feed'
      | Raise _ => first_stamp k feed'
      end
  end.

(** The key of a record of the output *)
Definition key_of (e : entry) : Z := round_min (timestamp e).

(** No reading of [feed] falls under the key [k]. *)
Definition off_key (k : Z) (feed : list reading) : Prop :=
  ∀ f ts, f ∈ feed → parse_created_at f = Ok ts → round_min ts ≠ k.

(** The temperature a reading holds for sensor [s]: the part [s - 1]
    of [field2] for a packed reading, [field{s}] for a legacy one *)
Definition temp_value (f : reading) (s : nat) : res (option pyfloat) :=
  let field2 := py_get f "field2" in
  if csv_detect field2 then
    tParts ← jval_split field2;
    csv_part tParts s
  else num_parse (py_get f (field_key s)).

(** A loop body that returns and relates the record before and after
    by [R] *)
Definition body_keeps (R : entry → entry → Prop)
    (body : reading → entry → res entry) : Prop :=
  ∀ f e, ∃ e', body f e = Ok e' ∧ R e e'.

(** What a flag that holds [a] may hold later: a set flag stays as it
    is or becomes [1]. *)
Definition flag_step (a b : option Z) : Prop :=
  match a with
  | None => True
  | Some v => b = Some v ∨ b = Some 1
  end.

(** The mapping agrees with the readings [seen] so far: a key is in it
    when a reading fell under it, with the timestamp of the first one. *)
Definition stamps_of (seen : list reading) (d : keymap) : Prop :=
  ∀ k, match dict_get d k with
       | Ok e => first_stamp k seen = Some (timestamp e)
       | Raise _ => first_stamp k seen = None
       end.

End MergeVocabulary.

(** [l[-1]] *)
Definition py_last {A} (l : list A) : res A :=
  match last l with
  | Some x => Ok x
  | None => Raise IndexError
  end.

(** ** The timestamps of [inject_old_humidity.py] (lines 31-35) *)

(** [s.replace(old, new)] for a non-empty [old], from left to right and
    without overlap: [skip] counts the characters of the match just
    replaced that are still to pass. *)
Fixpoint str_replace_from (old new : string) (skip : nat) (s : string)
  : string :=
  match s with
  | EmptyString => EmptyString
  | String c s' =>
      match skip with
      | S k => str_replace_from old new k s'
      | O =>
          if String.prefix old s
          then new ++ str_replace_from old new (String.length old - 1) s'
          else String c (str_replace_from old new 0 s')
      end
  end.

(** [new] before every character and at the end: what [replace] does
    with an empty [old] *)
Fixpoint str_interleave (new : string) (s : string) : string :=
  match s with
  | EmptyString => new
  | String c s' => new ++ String c (str_interleave new s')
  end.

(** [s.replace(old, new)] *)
Definition str_replace_all (old new : string) (s : string) : string :=
  match old with
  | EmptyString => str_interleave new s
  | String _ _ => str_replace_from old new 0 s
  end.

(** Line 33: [ts_str.replace('+00:00', 'Z').replace('Z', '+00:00')] *)
Definition normalize_created_at (ts_str : string) : string :=
  str_replace_all "Z" "+00:00" (str_replace_all "+00:00" "Z" ts_str).

(** ** The wrapper of [merged_data.js]

    The file is a JavaScript assignment around the JSON text.  The
    injector writes it, the other two scripts cut the JSON out of it.
    A Python [str] is the list of its code points here, so that the
    whitespace of [\s] and of [rstrip()] is what Python takes it to be. *)
Abbreviation text := (list N).

Definition text_of (s : string) : text :=
  N_of_ascii <$> list_ascii_of_string s.

(** [c.isspace()], which is also the [\s] of [re] on a [str] *)
Definition is_space (c : N) : bool :=
  ((9 <=? c) && (c <=? 13) || (28 <=? c) && (c <=? 32)
   || (c =? 133) || (c =? 160) || (c =? 5760)
   || (8192 <=? c) && (c <=? 8202)
   || (c =? 8232) || (c =? 8233) || (c =? 8239) || (c =? 8287)
   || (c =? 12288))%N.

(** Line 12 of [debug_parse.py]: [re.sub(r'^[^{]*', '', content)] *)
Fixpoint strip_prefix (content : text) : text :=
  match content with
  | [] => []
  | c :: rest => if (c =? 123)%N then content else strip_prefix rest
  end.

(** Line 13 of [debug_parse.py]: [re.sub(r';\s*$', '', json_str)], which
    cuts at the semicolon that only whitespace follows *)
Fixpoint strip_semicolon (json_str : text) : text :=
  match json_str with
  | [] => []
  | c :: rest =>
      if (c =? 59)%N && forallb is_space rest then []
      else c :: strip_semicolon rest
  end.

(** Lines 12-13 of [debug_parse.py]: what goes to [json.loads] *)
Definition unwrap_js (content : text) : text :=
  strip_semicolon (strip_prefix content).

(** [s.rstrip()] and [s.rstrip(';')]: the trailing characters that
    satisfy [p] are dropped. *)
Fixpoint text_rstrip (p : N → bool) (s : text) : text :=
  match s with
  | [] => []
  | c :: rest =>
      match text_rstrip p rest with
      | [] => if p c then [] else [c]
      | kept => c :: kept
      end
  end.

(** [s.index(c)] *)
Fixpoint text_index (c : N) (s : text) : res nat :=
  match s with
  | [] => Raise ValueError
  | a :: rest => if (a =? c)%N then Ok O else i ← text_index c rest; Ok (S i)
  end.

(** Lines 28-29 of [check_freshness.py]:
    [content[content.index('{'):].rstrip().rstrip(';')] *)
Definition unwrap_freshness (content : text) : res text :=
  json_start ← text_index 123 content;
  Ok (text_rstrip (N.eqb 59) (text_rstrip is_space (drop json_start content))).

(** [line.startswith('//')] *)
Definition is_comment_line (line : text) : bool :=
  match line with
  | a :: b :: _ => (a =? 47)%N && (b =? 47)%N
  | _ => false
  end.

(** Lines 62-67 of [inject_old_humidity.py]: the comment lines at the
    head of the file, up to the [break] *)
Fixpoint header_lines (lines : list text) : list text :=
  match lines with
  | [] => []
  | line :: rest =>
      if is_comment_line line then line :: header_lines rest else []
  end.

(** Line 68: ['\n'.join(header_lines)] *)
Fixpoint join_lines (lines : list text) : text :=
  match lines with
  | [] => []
  | [line] => line
  | line :: rest => (line ++ 10%N :: join_lines rest)%list
  end.

(** Lines 100-101: [(header + '\n' if header else '') +
    f'window.THINGSPEAK_DATA = {json_str};'] *)
Definition write_js (header json_str : text) : text :=
  ((match header with [] => [] | _ :: _ => header ++ [10%N] end)
   ++ text_of "window.THINGSPEAK_DATA = " ++ json_str ++ [59%N])%list.

(** ** [check_freshness.py] (lines 33-43) *)

Section Freshness.
Context {B : PyBuiltins}.

(** Lines 33-35 of [inject_old_humidity.py]: the [try] block *)
Definition inject_first_parse (ts_str : string) : res datetime :=
  py_fromisoformat (normalize_created_at ts_str).

(** Lines 33-39: the timestamp of the last reading of [feeds], or of
    [tempFeeds] when [feeds] is empty; [None] when both are empty and
    the script prints ["0 entries"].  Nothing catches what the parse
    raises. *)
Definition freshness_latest (feeds temp_feeds : list reading)
  : option (res datetime) :=
  let all_feeds := match feeds with [] => temp_feeds | _ :: _ => feeds end in
  match all_feeds with
  | [] => None
  | _ :: _ => Some (f ← py_last all_feeds; parse_created_at f)
  end.

(** [age.days] and [age.seconds] of a [timedelta] of [us] microseconds:
    the days are rounded down and the seconds are never negative. *)
Definition td_days (us : Z) : Z := us / 86400000000.
Definition td_seconds (us : Z) : Z := (us mod 86400000000) / 1000000.

(** Lines 40-41: [age.seconds // 3600] and [(age.seconds % 3600) // 60]
    of [age = now - latest_dt] *)
Definition age_hours (now latest_dt : datetime) : Z :=
  td_seconds (dt_instant now - dt_instant latest_dt) / 3600.
Definition age_minutes (now latest_dt : datetime) : Z :=
  (td_seconds (dt_instant now - dt_instant latest_dt) mod 3600) / 60.
Definition age_days (now latest_dt : datetime) : Z :=
  td_days (dt_instant now - dt_instant latest_dt).

(** [str(z)] of an int *)
Definition str_of_Z (z : Z) : string :=
  if z <? 0 then "-" ++ str_of_nat (Z.to_nat (- z))
  else str_of_nat (Z.to_nat z).

(** Lines 41-43: [age_str] *)
Definition age_str (now latest_dt : datetime) : string :=
  let age_str :=
    str_of_Z (age_hours now latest_dt) ++ "h "
    ++ str_of_Z (age_minutes now latest_dt) ++ "m" in
  if 0 <? age_days now latest_dt
  then str_of_Z (age_days now latest_dt) ++ "d " ++ age_str
  else age_str.

End Freshness.

(** ** The diagnostics that follow the merge (lines 100-125) *)

(** [a - timedelta(days=d)] on an aware datetime: [None] when the date
    leaves the range of [datetime] and Python raises [OverflowError];
    otherwise the instant moves back by [d] days of 86400 seconds. *)
Class PyTimedelta (B : PyBuiltins) : Type := {
  dt_minus_days : datetime → Z → option datetime;
  dt_minus_days_instant a d b :
    dt_minus_days a d = Some b →
    dt_instant b = dt_instant a - d * 86400000000;
}.

Section Diagnostics.
Context {B : PyBuiltins} {D : PyTimedelta B}.

(** Lines 101-103 end in [IndexError] at [all_entries[-1]], in
    [OverflowError] at the subtraction, or with [filtered]. *)
Inductive window : Type :=
  | WindowIndexError
  | WindowOverflowError
  | Window (filtered : list entry).

(** Lines 101-103: the entries of the last seven days before the latest *)
Definition week_window (all_entries : list entry) : window :=
  match py_last all_entries with
  | Raise _ => WindowIndexError
  | Ok last_entry =>
      let latest := timestamp last_entry in
      match dt_minus_days latest 7 with
      | None => WindowOverflowError
      | Some week_start =>
          Window (List.filter
                    (λ e, dt_instant week_start <=? dt_instant (timestamp e))
                    all_entries)
      end
  end.

(** [e[f't{s}']] *)
Definition get_t (s : nat) (e : entry) : res (option pyfloat) :=
  match e_t e !! s with
  | Some v => Ok v
  | None => Raise KeyError
  end.

(** Line 111, one entry of the comprehension: the two tests of
    [e[key] is not None], then the tuple *)
Definition dataset_turn (s : nat) (data_points : list (datetime * option pyfloat))
    (e : entry) : res (list (datetime * option pyfloat)) :=
  v1 ← get_t s e;
  if not_none v1 then
    v2 ← get_t s e;
    if not_none v2 then
      v3 ← get_t s e;
      Ok (data_points ++ [(timestamp e, v3)])%list
    else Ok data_points
  else Ok data_points.

(** Line 111: the chart points of sensor [s] *)
Definition make_dataset (s : nat) (filtered : list entry)
  : res (list (datetime * option pyfloat)) :=
  for_each filtered (dataset_turn s) [].

(** The entries line 111 keeps *)
Definition has_t (s : nat) (e : entry) : bool :=
  match e_t e !! s with
  | Some (Some _) => true
  | _ => false
  end.

(** Lines 121-125: one turn of the loop over the chart points; the
    gap is a [timedelta], here in microseconds. *)
Definition gap_turn (data_points : list (datetime * option pyfloat))
    (st : Z * option datetime * option datetime) (i : nat)
  : res (Z * option datetime * option datetime) :=
  cur ← py_index data_points i;
  prev ← py_index data_points (i - 1)%nat;
  let gap := dt_instant cur.1 - dt_instant prev.1 in
  if st.1.1 <? gap then Ok (gap, Some prev.1, Some cur.1) else Ok st.

(** Lines 116-125: [None] when the guard of line 116 skips the loop *)
Definition largest_gap (data_points : list (datetime * option pyfloat))
  : res (option (Z * option datetime * option datetime)) :=
  if (2 <=? length data_points)%nat then
    st ← for_each (seq 1 (length data_points - 1)) (gap_turn data_points)
           (0, None, None);
    Ok (Some st)
  else Ok None.

(** The gap that ends at the point [i] *)
Definition gap_at (data_points : list (datetime * option pyfloat)) (i : nat)
  : option Z :=
  match data_points !! (i - 1)%nat, data_points !! i with
  | Some prev, Some cur => Some (dt_instant cur.1 - dt_instant prev.1)
  | _, _ => None
  end.

(** What lines 117-125 hold after the points up to [k]: [m] bounds
    every gap so far, and it is either the initial [timedelta(0)] with
    no bounds recorded, or the first gap that reaches it, recorded with
    the two timestamps it lies between. *)
Definition gap_inv (data_points : list (datetime * option pyfloat)) (k : nat)
    (st : Z * option datetime * option datetime) : Prop :=
  let '(m, a, b) := st in
  0 ≤ m ∧
  (∀ i g, (1 ≤ i ≤ k)%nat → gap_at data_points i = Some g → g ≤ m) ∧
  ((m = 0 ∧ a = None ∧ b = None) ∨
   ∃ i prev cur, (1 ≤ i ≤ k)%nat ∧
     data_points !! (i - 1)%nat = Some prev ∧ data_points !! i = Some cur ∧
     a = Some prev.1 ∧ b = Some cur.1 ∧
     m = dt_instant cur.1 - dt_instant prev.1 ∧ 0 < m ∧
     ∀ j g, (1 ≤ j < i)%nat → gap_at data_points j = Some g → g < m).

End Diagnostics.

(** ** More samples *)

(** A packed reading five minutes later, under another key *)
Definition later_packed_reading : reading :=
  reading_of [("created_at", JStr "2026-02-25T10:05:00Z");
              ("field2", JStr "23.5,24.0"); ("field3", JStr "42,43")].

Definition stamp_10_05_00 : @datetime CPython.runtime :=
  CPython.Datetime 1772013900000000 0.

(** The mapping after the packed reading, and its record *)
Definition packed_mapping : list (Z * @entry CPython.runtime) :=
  match ingest_temp 5 [] packed_reading with
  | Ok es => es
  | Raise _ => []
  end.

(** A mapping with one record, whose flag of sensor 1 is set to [1] *)
Definition flagged_record : @entry CPython.runtime :=
  set_ok 1 1 (new_entry stamp_10_00_00).

Definition flagged_mapping : list (Z * @entry CPython.runtime) :=
  [(round_min stamp_10_00_00, flagged_record)].

(** [a - timedelta(days=d)] on the [CPython] runtime: the wall clock
    must stay between [datetime.min] and [datetime.max]. *)
Definition cpython_minus_days (a : CPython.datetime) (d : Z)
  : option CPython.datetime :=
  let wall :=
    CPython.dt_micros a + CPython.dt_utcoffset a * 1000000
    - d * 86400000000 in
  if (-62135596800000000 <=? wall) && (wall <=? 253402300799999999)
  then Some (CPython.Datetime (CPython.dt_micros a - d * 86400000000)
               (CPython.dt_utcoffset a))
  else None.

#[global] Instance cpython_timedelta : PyTimedelta CPython.runtime.
Proof.
  refine {| dt_minus_days := cpython_minus_days |}.
  intros a d b. unfold cpython_minus_days.
  destruct (_ && _); [|done]. by intros [= <-].
Defined.

(** A file of one comment line and the assignment, as lines *)
Definition sample_lines : list text :=
  [text_of "// Downloaded: 2026-02-25 10:06";
   text_of "window.THINGSPEAK_DATA = {};"].

(** The inside of a small JSON object: a key in quotes and a number *)
Definition sample_inner : text := [34; 97; 34; 58; 49]%N.

(** * Properties *)

(** Takes the value a closed computation returns as the witness. *)
Ltac exists_result t :=
  let r := eval vm_compute in t in
  lazymatch r with
  | Ok ?x => exists x
  end.

(** Slots after the assignments of a turn *)
Ltac slots :=
  unfold slot; simpl;
  rewrite ?lookup_insert_eq; rewrite ?lookup_insert_ne by done; simpl.

Section Facts.
Context {B : PyBuiltins}.

Implicit Types (e : entry) (s : nat) (f : reading) (d es : keymap).

(** ** The value parser *)

Lemma num_parse_null : num_parse JNull = Ok None.
Proof. reflexivity. Qed.

Lemma num_parse_str (x : string) :
  num_parse (JStr x) =
  Ok (if is_null_token (JStr x) then None else float_of_str x).
Proof.
  unfold num_parse. destruct (is_null_token (JStr x)); [done|].
  simpl. by destruct (float_of_str x).
Qed.

Lemma num_parse_total (v : jval) : ∃ r, num_parse v = Ok r.
Proof.
  destruct v as [|x]; [by exists None|].
  rewrite num_parse_str. eauto.
Qed.

Lemma csv_part_total (parts : list string) s : ∃ r, csv_part parts s = Ok r.
Proof.
  unfold csv_part. case_bool_decide as Hlt; [|by eauto].
  unfold py_index. destruct (lookup_lt_is_Some_2 parts (s - 1) Hlt) as [p ->].
  simpl. apply num_parse_total.
Qed.

Lemma csv_part_short (parts : list string) s :
  (1 ≤ s)%nat → (length parts < s)%nat → csv_part parts s = Ok None.
Proof.
  intros Hs Hlen. unfold csv_part. case_bool_decide; [lia|done].
Qed.

(** ** One turn of a loop over the sensors

    Each turn returns, keeps the timestamp, and touches the slot of its
    own sensor only. *)

Lemma csv_sensor_turn tParts rhParts :
  turn_of (csv_sensor tParts rhParts) (csv_turn tParts rhParts).
Proof.
  intros e s. unfold csv_sensor.
  destruct (csv_part_total tParts s) as [tv Htv].
  destruct (csv_part_total rhParts s) as [hv Hhv].
  rewrite Htv, Hhv. simpl. unfold ok_missing. simpl.
  destruct (e_ok e !! s) as [v|] eqn:Hok; eexists; (split; [done|]);
    (split; [done|]); split.
  - intros s' Hne. by slots.
  - exists tv, hv. slots. by rewrite Hok.
  - intros s' Hne. by slots.
  - exists tv, hv. slots. by rewrite Hok.
Qed.

Lemma legacy_sensor_turn f : turn_of (legacy_sensor f) (legacy_turn f).
Proof.
  intros e s. unfold legacy_sensor.
  destruct (num_parse_total (py_get f (field_key s))) as [val Hval].
  rewrite Hval. simpl. unfold ok_missing. simpl.
  destruct (e_ok e !! s) as [v|] eqn:Hok; eexists; (split; [done|]);
    (split; [done|]); split.
  - intros s' Hne. by slots.
  - exists val. slots. by rewrite Hok.
  - intros s' Hne. by slots.
  - exists val. slots. by rewrite Hok.
Qed.

Lemma hum_sensor_turn f : turn_of (hum_sensor f) (hum_turn f).
Proof.
  intros e s. unfold hum_sensor.
  destruct (num_parse_total (py_get f (field_key s))) as [val Hval].
  rewrite Hval. simpl.
  destruct (present_nonzero val) eqn:Hnz; eexists; (split; [done|]);
    (split; [done|]); split.
  - intros s' Hne. by slots.
  - exists val. rewrite Hnz. by slots.
  - intros s' Hne. by slots.
  - exists val. rewrite Hnz. by slots.
Qed.

(** ** A loop over distinct sensors *)

Lemma for_each_turns body Q (l : list nat) e :
  turn_of body Q → NoDup l →
  ∃ e', for_each l body e = Ok e' ∧ timestamp e' = timestamp e ∧
    (∀ s, s ∉ l → slot e' s = slot e s) ∧
    (∀ s, s ∈ l → Q s (slot e s) (slot e' s)).
Proof.
  intros Hbody. revert e. induction l as [|x l IH]; intros e Hnd.
  - exists e. do 3 (split; [done|]). intros s Hs. by apply elem_of_nil in Hs.
  - apply NoDup_cons in Hnd as [Hx Hnd].
    destruct (Hbody e x) as (e1 & He1 & Hts1 & Hframe1 & HQ1).
    destruct (IH e1 Hnd) as (e' & He' & Hts' & Hframe' & HQ').
    exists e'. simpl. rewrite He1. simpl. split; [done|].
    split; [congruence|]. split.
    + intros s Hs. apply not_elem_of_cons in Hs as [Hne Hs].
      rewrite Hframe' by done. by apply Hframe1.
    + intros s Hs. apply elem_of_cons in Hs as [->|Hs].
      * rewrite Hframe' by done. done.
      * assert (s ≠ x) as Hne by (intros ->; done).
        rewrite <- (Hframe1 s Hne). by apply HQ'.
Qed.

Lemma elem_of_py_range1 (n s : nat) : s ∈ py_range1 n ↔ (1 ≤ s ≤ n)%nat.
Proof. unfold py_range1. rewrite elem_of_seq. lia. Qed.

Lemma csv_detect_str (v : jval) :
  csv_detect v = true → ∃ x, v = JStr x.
Proof. destruct v; [done|eauto]. Qed.

Lemma jval_or_empty_str (v : jval) : ∃ x, jval_or_empty v = JStr x.
Proof. destruct v as [|[|]]; simpl; eauto. Qed.

(** ** What one reading does to its record *)

Lemma temp_record_csv n f e :
  csv_detect (py_get f "field2") = true →
  ∃ tParts rhParts e',
    jval_split (py_get f "field2") = Ok tParts ∧
    jval_split (jval_or_empty (py_get f "field3")) = Ok rhParts ∧
    temp_record n f e = Ok e' ∧ timestamp e' = timestamp e ∧
    (∀ s, ¬ (1 ≤ s ≤ n)%nat → slot e' s = slot e s) ∧
    (∀ s, (1 ≤ s ≤ n)%nat → csv_turn tParts rhParts s (slot e s) (slot e' s)).
Proof.
  intros Hcsv. unfold temp_record. rewrite Hcsv.
  destruct (csv_detect_str _ Hcsv) as [x2 ->].
  destruct (jval_or_empty_str (py_get f "field3")) as [x3 ->]. simpl.
  destruct (for_each_turns _ _ (py_range1 n) e
              (csv_sensor_turn (str_split "," x2) (str_split "," x3))
              (NoDup_seq 1 n))
    as (e' & He' & Hts & Hframe & Hturn).
  exists (str_split "," x2), (str_split "," x3), e'.
  repeat split; try done.
  - intros s Hs. apply Hframe. by rewrite elem_of_py_range1.
  - intros s Hs. apply Hturn. by rewrite elem_of_py_range1.
Qed.

Lemma temp_record_legacy n f e :
  csv_detect (py_get f "field2") = false →
  ∃ e', temp_record n f e = Ok e' ∧ timestamp e' = timestamp e ∧
    (∀ s, ¬ (1 ≤ s ≤ Nat.min n 8)%nat → slot e' s = slot e s) ∧
    (∀ s, (1 ≤ s ≤ Nat.min n 8)%nat → legacy_turn f s (slot e s) (slot e' s)).
Proof.
  intros Hcsv. unfold temp_record. rewrite Hcsv.
  destruct (for_each_turns _ _ (py_range1 (Nat.min n 8)) e
              (legacy_sensor_turn f) (NoDup_seq 1 _))
    as (e' & He' & Hts & Hframe & Hturn).
  exists e'. repeat split; try done.
  - intros s Hs. apply Hframe. by rewrite elem_of_py_range1.
  - intros s Hs. apply Hturn. by rewrite elem_of_py_range1.
Qed.

Lemma hum_record_spec n f e :
  ∃ e', hum_record n f e = Ok e' ∧ timestamp e' = timestamp e ∧
    (∀ s, ¬ (1 ≤ s ≤ Nat.min n 8)%nat → slot e' s = slot e s) ∧
    (∀ s, (1 ≤ s ≤ Nat.min n 8)%nat → hum_turn f s (slot e s) (slot e' s)).
Proof.
  unfold hum_record.
  destruct (for_each_turns _ _ (py_range1 (Nat.min n 8)) e
              (hum_sensor_turn f) (NoDup_seq 1 _))
    as (e' & He' & Hts & Hframe & Hturn).
  exists e'. repeat split; try done.
  - intros s Hs. apply Hframe. by rewrite elem_of_py_range1.
  - intros s Hs. apply Hturn. by rewrite elem_of_py_range1.
Qed.

Lemma temp_record_total n f e :
  ∃ e', temp_record n f e = Ok e' ∧ timestamp e' = timestamp e ∧
    (∀ s, ¬ (1 ≤ s ≤ n)%nat → slot e' s = slot e s).
Proof.
  destruct (csv_detect (py_get f "field2")) eqn:Hcsv.
  - destruct (temp_record_csv n f e Hcsv)
      as (? & ? & e' & _ & _ & He' & Hts & Hframe & _). eauto.
  - destruct (temp_record_legacy n f e Hcsv) as (e' & He' & Hts & Hframe & _).
    exists e'. repeat split; try done. intros s Hs. apply Hframe. lia.
Qed.

Lemma hum_record_total n f e :
  ∃ e', hum_record n f e = Ok e' ∧ timestamp e' = timestamp e ∧
    (∀ s, ¬ (1 ≤ s ≤ n)%nat → slot e' s = slot e s).
Proof.
  destruct (hum_record_spec n f e) as (e' & He' & Hts & Hframe & _).
  exists e'. repeat split; try done. intros s Hs. apply Hframe. lia.
Qed.

(** ** The key mapping *)

Lemma dict_get_set_eq d k e : dict_get (dict_set d k e) k = Ok e.
Proof.
  induction d as [|[k' e'] d IH]; simpl.
  - by rewrite Z.eqb_refl.
  - destruct (Z.eqb k' k) eqn:Hk; simpl; by rewrite ?Z.eqb_refl, ?Hk.
Qed.

Lemma dict_get_set_ne d k k' e :
  k ≠ k' → dict_get (dict_set d k e) k' = dict_get d k'.
Proof.
  intros Hne. induction d as [|[k0 e0] d IH]; simpl.
  - by apply Z.eqb_neq in Hne as ->.
  - destruct (Z.eqb k0 k) eqn:Hk; simpl.
    + apply Z.eqb_eq in Hk as ->. by apply Z.eqb_neq in Hne as ->.
    + by rewrite IH.
Qed.

Lemma dict_set_set d k e e' : dict_set (dict_set d k e) k e' = dict_set d k e'.
Proof.
  induction d as [|[k0 e0] d IH]; simpl.
  - by rewrite Z.eqb_refl.
  - destruct (Z.eqb k0 k) eqn:Hk; simpl; by rewrite ?Z.eqb_refl, ?Hk, ?IH.
Qed.

Lemma dict_has_elem d k : dict_has d k = true ↔ k ∈ d.*1.
Proof.
  unfold dict_has. induction d as [|[k0 e0] d IH]; csimpl.
  - split; [done|]. intros H. by apply elem_of_nil in H.
  - rewrite elem_of_cons. destruct (Z.eqb k0 k) eqn:Hk.
    + apply Z.eqb_eq in Hk. split; [by left|done].
    + apply Z.eqb_neq in Hk. rewrite IH. split; [by right|].
      by intros [?|?].
Qed.

Lemma dict_set_keys d k e :
  (dict_set d k e).*1 = if dict_has d k then d.*1 else (d.*1 ++ [k])%list.
Proof.
  unfold dict_has. induction d as [|[k0 e0] d IH]; csimpl; [done|].
  destruct (Z.eqb k0 k) eqn:Hk; csimpl.
  - apply Z.eqb_eq in Hk as ->. done.
  - rewrite IH. by destruct (dict_get d k).
Qed.

Lemma dict_get_elem d k e : dict_get d k = Ok e → (k, e) ∈ d.
Proof.
  induction d as [|[k0 e0] d IH]; simpl; [done|].
  destruct (Z.eqb k0 k) eqn:Hk.
  - apply Z.eqb_eq in Hk as ->. intros [= ->]. apply elem_of_cons. by left.
  - intros H. apply elem_of_cons. right. by apply IH.
Qed.

(** Values of the mapping after an assignment: the old ones, with the
    one of [k] replaced or the new one added. *)
Lemma dict_set_elem d k e k' e' :
  (k', e') ∈ dict_set d k e → (k' = k ∧ e' = e) ∨ (k', e') ∈ d.
Proof.
  induction d as [|[k0 e0] d IH]; simpl.
  - intros H. apply list_elem_of_singleton in H as [= -> ->]. by left.
  - destruct (Z.eqb k0 k) eqn:Hk; rewrite !elem_of_cons.
    + intros [[= -> ->]|H]; [by left|]. by right; right.
    + intros [H|H]; [by right; left|]. destruct (IH H); [by left|].
      by right; right.
Qed.

(** Lines 45-48: the loops work on [record_before], and the result is
    stored under the key. *)
Lemma with_record_eq es ts body :
  with_record es ts body =
  (e' ← body (record_before es ts); Ok (dict_set es (round_min ts) e')).
Proof.
  unfold with_record, record_before, dict_has.
  destruct (dict_get es (round_min ts)) as [e0|x] eqn:Hget; simpl.
  - rewrite Hget. done.
  - rewrite dict_get_set_eq. simpl.
    destruct (body (new_entry ts)); simpl; [|done]. by rewrite dict_set_set.
Qed.

(** ** One reading *)

Lemma ingest_temp_stamped n es f ts :
  parse_created_at f = Ok ts →
  ingest_temp n es f =
  (e' ← temp_record n f (record_before es ts);
   Ok (dict_set es (round_min ts) e')).
Proof. intros Hts. unfold ingest_temp. rewrite Hts. apply with_record_eq. Qed.

Lemma ingest_hum_stamped n es f ts :
  parse_created_at f = Ok ts →
  ingest_hum n es f =
  (e' ← hum_record n f (record_before es ts);
   Ok (dict_set es (round_min ts) e')).
Proof. intros Hts. unfold ingest_hum. rewrite Hts. apply with_record_eq. Qed.

Lemma record_before_keyed n es ts :
  well_keyed n es →
  round_min (timestamp (record_before es ts)) = round_min ts ∧
  ∀ s, ¬ (1 ≤ s ≤ n)%nat → slot (record_before es ts) s = (None, None, None).
Proof.
  intros Hwf. unfold record_before.
  destruct (dict_get es (round_min ts)) as [e|x] eqn:Hget.
  - apply dict_get_elem in Hget. destruct (Hwf _ _ Hget) as [Hk Hs]. done.
  - done.
Qed.

(** Storing a record that keeps the key and the range keeps the mapping
    well keyed, and the keys grow by [see]. *)
Lemma dict_set_keyed n es ts e' :
  well_keyed n es →
  round_min (timestamp e') = round_min ts →
  (∀ s, ¬ (1 ≤ s ≤ n)%nat → slot e' s = (None, None, None)) →
  well_keyed n (dict_set es (round_min ts) e') ∧
  (dict_set es (round_min ts) e').*1 = see es.*1 (round_min ts).
Proof.
  intros Hwf Hk Hs. split.
  - intros k e Hin. apply dict_set_elem in Hin as [[-> ->]|Hin]; [done|].
    by apply Hwf.
  - rewrite dict_set_keys. unfold see.
    destruct (dict_has es (round_min ts)) eqn:Hhas.
    + apply dict_has_elem in Hhas. by rewrite bool_decide_true.
    + rewrite bool_decide_false; [done|]. rewrite <- dict_has_elem.
      by rewrite Hhas.
Qed.

Lemma ingest_temp_step n : feed_step n (ingest_temp n).
Proof.
  intros es f Hwf. unfold feed_keys, stamped. simpl.
  destruct (parse_created_at f) as [ts|x] eqn:Hts.
  - rewrite (ingest_temp_stamped _ _ _ _ Hts).
    destruct (record_before_keyed n es ts Hwf) as (Hk & Hs).
    destruct (temp_record_total n f (record_before es ts))
      as (e' & -> & Hts' & Hframe). simpl.
    destruct (dict_set_keyed n es ts e' Hwf) as [Hwf' Hkeys].
    + by rewrite Hts'.
    + intros s Hns. rewrite Hframe by done. by apply Hs.
    + eexists. split; [done|]. split; [done|]. split; [|done].
      simpl. done.
  - unfold ingest_temp. rewrite Hts. exists es. done.
Qed.

Lemma ingest_hum_step n : feed_step n (ingest_hum n).
Proof.
  intros es f Hwf. unfold feed_keys, stamped. simpl.
  destruct (parse_created_at f) as [ts|x] eqn:Hts.
  - rewrite (ingest_hum_stamped _ _ _ _ Hts).
    destruct (record_before_keyed n es ts Hwf) as (Hk & Hs).
    destruct (hum_record_total n f (record_before es ts))
      as (e' & -> & Hts' & Hframe). simpl.
    destruct (dict_set_keyed n es ts e' Hwf) as [Hwf' Hkeys].
    + by rewrite Hts'.
    + intros s Hns. rewrite Hframe by done. by apply Hs.
    + eexists. split; [done|]. split; [done|]. split; [|done].
      simpl. done.
  - unfold ingest_hum. rewrite Hts. exists es. done.
Qed.

(** ** A whole feed *)

Lemma ingest_feed_for_each step feed es :
  ingest_feed step feed es = for_each feed step es.
Proof. by destruct feed. Qed.

Lemma feed_keys_cons f feed :
  feed_keys (f :: feed) = (feed_keys [f] ++ feed_keys feed)%list.
Proof. unfold feed_keys. simpl. by destruct (parse_created_at f). Qed.

Lemma for_each_feed n step feed es :
  feed_step n step → well_keyed n es →
  ∃ es', for_each feed step es = Ok es' ∧ well_keyed n es' ∧
    es'.*1 = foldl see es.*1 (feed_keys feed) ∧
    for_each (well_stamped feed) step es = Ok es'.
Proof.
  intros Hstep. revert es. induction feed as [|f feed IH]; intros es Hwf.
  - exists es. done.
  - destruct (Hstep es f Hwf) as (es1 & Hes1 & Hwf1 & Hk1 & Hskip).
    destruct (IH es1 Hwf1) as (es' & Hes' & Hwf' & Hk' & Hfilter).
    exists es'. split; [simpl; by rewrite Hes1|]. split; [done|]. split.
    + rewrite feed_keys_cons, foldl_app, <- Hk1. done.
    + unfold well_stamped in *. simpl. destruct (stamped f) eqn:Hst; simpl.
      * rewrite Hes1. done.
      * rewrite <- (Hskip eq_refl). done.
Qed.

Lemma well_keyed_nil n : well_keyed n [].
Proof. intros k e H. by apply elem_of_nil in H. Qed.

(** Lines 36-86 always return, with the keys in the order of their
    first reading, temperature feed first. *)
Lemma ingest_keys n T H :
  ∃ es, ingest n T H = Ok es ∧ well_keyed n es ∧
    es.*1 = first_seen (feed_keys T ++ feed_keys H) ∧
    ingest n (well_stamped T) (well_stamped H) = Ok es.
Proof.
  unfold ingest. rewrite !ingest_feed_for_each.
  destruct (for_each_feed n _ T [] (ingest_temp_step n) (well_keyed_nil n))
    as (es1 & Hes1 & Hwf1 & Hk1 & Hf1).
  destruct (for_each_feed n _ H es1 (ingest_hum_step n) Hwf1)
    as (es & Hes & Hwf & Hk & Hf).
  exists es. rewrite Hes1, Hf1. simpl. rewrite !ingest_feed_for_each.
  do 2 (split; [done|]). split; [|done].
  unfold first_seen. by rewrite foldl_app, Hk, Hk1.
Qed.

(** ** Fill *)

Lemma fill_sensor_turn : turn_of (λ e s, Ok (fill_sensor e s)) fill_turn.
Proof.
  intros e s. eexists. split; [done|]. unfold fill_sensor, fill_turn.
  destruct (e_t e !! s) as [t|] eqn:Ht; destruct (e_rh e !! s) as [rh|] eqn:Hrh;
    destruct (e_ok e !! s) as [ok|] eqn:Hok; simpl; rewrite ?Hrh, ?Hok; simpl;
    rewrite ?Hok; (split; [done|]); split; try (intros s' Hne; by slots);
    slots; by rewrite ?Ht, ?Hrh, ?Hok.
Qed.

Lemma for_each_pure {A S} (step : S → A → S) (l : list A) (st : S) :
  for_each l (λ st x, Ok (step st x)) st = Ok (foldl step st l).
Proof. revert st. induction l as [|x l IH]; intros st; simpl; [done|apply IH]. Qed.

Lemma fill_spec n e :
  timestamp (fill n e) = timestamp e ∧
  (∀ s, ¬ (1 ≤ s ≤ n)%nat → slot (fill n e) s = slot e s) ∧
  (∀ s, (1 ≤ s ≤ n)%nat → fill_turn s (slot e s) (slot (fill n e) s)).
Proof.
  destruct (for_each_turns _ _ (py_range1 n) e fill_sensor_turn (NoDup_seq 1 n))
    as (e' & He' & Hts & Hframe & Hturn).
  rewrite for_each_pure in He'. injection He' as He'. unfold fill.
  rewrite He'. split; [done|]. split.
  - intros s Hs. apply Hframe. by rewrite elem_of_py_range1.
  - intros s Hs. apply Hturn. by rewrite elem_of_py_range1.
Qed.

(** ** Sort *)

Lemma sort_insert_perm x l : Permutation (sort_insert x l) (x :: l).
Proof.
  induction l as [|y l IH]; simpl; [done|].
  destruct (ts_lt y x); [|done]. rewrite IH. apply perm_swap.
Qed.

Lemma sort_by_timestamp_perm l : Permutation (sort_by_timestamp l) l.
Proof.
  induction l as [|x l IH]; simpl; [done|].
  rewrite sort_insert_perm. by constructor.
Qed.

Lemma ts_lt_le a b : ts_lt a b = true → ts_le a b.
Proof. unfold ts_lt, ts_le. lia. Qed.

Lemma ts_lt_false_le a b : ts_lt a b = false → ts_le b a.
Proof. unfold ts_lt, ts_le. lia. Qed.

Lemma ts_le_trans a b c : ts_le a b → ts_le b c → ts_le a c.
Proof. unfold ts_le. lia. Qed.

Lemma sort_insert_sorted x l :
  StronglySorted ts_le l → StronglySorted ts_le (sort_insert x l).
Proof.
  induction l as [|y l IH]; simpl; intros Hl.
  - repeat constructor.
  - apply StronglySorted_inv in Hl as [Hl Hy].
    destruct (ts_lt y x) eqn:Hlt.
    + constructor; [by apply IH|].
      rewrite sort_insert_perm. constructor; [by apply ts_lt_le|done].
    + apply ts_lt_false_le in Hlt. constructor; [by constructor|].
      constructor; [done|].
      eapply Forall_impl; [exact Hy|]. intros z Hz. by eapply ts_le_trans.
Qed.

Lemma sort_by_timestamp_sorted l : StronglySorted ts_le (sort_by_timestamp l).
Proof.
  induction l as [|x l IH]; simpl; [constructor|by apply sort_insert_sorted].
Qed.

Lemma at_instant_insert u x l :
  at_instant u (sort_insert x l) = at_instant u (x :: l).
Proof.
  unfold at_instant. induction l as [|y l IH]; simpl; [done|].
  destruct (ts_lt y x) eqn:Hlt; [|done]. simpl in *. rewrite IH.
  destruct (dt_instant (timestamp x) =? u) eqn:Hx; [|done].
  destruct (dt_instant (timestamp y) =? u) eqn:Hy; [|done].
  unfold ts_lt in Hlt. lia.
Qed.

(** The sort is stable: records of one instant keep their order. *)
Lemma sort_by_timestamp_stable u l :
  at_instant u (sort_by_timestamp l) = at_instant u l.
Proof.
  induction l as [|x l IH]; simpl; [done|].
  rewrite at_instant_insert. unfold at_instant in *. simpl. by rewrite IH.
Qed.

Lemma merge_eq n T H es :
  ingest n T H = Ok es →
  parseThingSpeakMerge n T H = Ok (sort_by_timestamp (fill_all n es)).
Proof. intros Hes. unfold parseThingSpeakMerge. by rewrite Hes. Qed.

Lemma fill_all_keys n es :
  well_keyed n es →
  (λ e, round_min (timestamp e)) <$> fill_all n es = es.*1.
Proof.
  intros Hwf. unfold fill_all, dict_values. rewrite map_map.
  induction es as [|[k e] es IH]; csimpl; [done|]. f_equal.
  - destruct (fill_spec n e) as [-> _].
    symmetry. apply (Hwf k e). apply elem_of_cons. by left.
  - apply IH. intros k' e' Hin. apply Hwf. apply elem_of_cons. by right.
Qed.

(** The record a reading leaves under its key *)
Lemma ingest_temp_at n es f ts e' :
  parse_created_at f = Ok ts →
  temp_record n f (record_before es ts) = Ok e' →
  ingest_temp n es f = Ok (dict_set es (round_min ts) e') ∧
  dict_get (dict_set es (round_min ts) e') (round_min ts) = Ok e'.
Proof.
  intros Hts He'. rewrite (ingest_temp_stamped _ _ _ _ Hts), He'.
  split; [done|apply dict_get_set_eq].
Qed.

Lemma ingest_hum_at n es f ts e' :
  parse_created_at f = Ok ts →
  hum_record n f (record_before es ts) = Ok e' →
  ingest_hum n es f = Ok (dict_set es (round_min ts) e') ∧
  dict_get (dict_set es (round_min ts) e') (round_min ts) = Ok e'.
Proof.
  intros Hts He'. rewrite (ingest_hum_stamped _ _ _ _ Hts), He'.
  split; [done|apply dict_get_set_eq].
Qed.

Lemma record_before_set es ts ts' e :
  round_min ts' = round_min ts →
  record_before (dict_set es (round_min ts) e) ts' = e.
Proof.
  intros Hk. unfold record_before. by rewrite Hk, dict_get_set_eq.
Qed.

(** The merge of one temperature reading, and of one temperature and
    one humidity reading of the same key *)
Lemma merge_single_temp n f ts e' :
  parse_created_at f = Ok ts →
  temp_record n f (new_entry ts) = Ok e' →
  parseThingSpeakMerge n [f] [] = Ok [fill n e'].
Proof.
  intros Hts He'.
  destruct (ingest_temp_at n [] f ts e' Hts He') as [Hing _].
  unfold parseThingSpeakMerge, ingest, ingest_feed, for_each.
  rewrite Hing. done.
Qed.

Lemma merge_temp_hum n ft fh ts ts' e1 e2 :
  parse_created_at ft = Ok ts →
  parse_created_at fh = Ok ts' →
  round_min ts' = round_min ts →
  temp_record n ft (new_entry ts) = Ok e1 →
  hum_record n fh e1 = Ok e2 →
  parseThingSpeakMerge n [ft] [fh] = Ok [fill n e2].
Proof.
  intros Hts Hts' Hk He1 He2.
  destruct (ingest_temp_at n [] ft ts e1 Hts He1) as [Hing1 _].
  assert (ingest_hum n [(round_min ts, e1)] fh = Ok [(round_min ts, e2)])
    as Hing2.
  { rewrite (ingest_hum_stamped _ _ _ _ Hts'), Hk.
    unfold record_before. simpl. by rewrite Hk, Z.eqb_refl, He2. }
  unfold parseThingSpeakMerge, ingest, ingest_feed, for_each.
  rewrite Hing1. simpl in *. rewrite Hing2. done.
Qed.

Lemma fill_lookup n e s :
  (1 ≤ s ≤ n)%nat →
  e_t (fill n e) !! s = Some (default None (e_t e !! s)) ∧
  e_rh (fill n e) !! s = Some (default None (e_rh e !! s)) ∧
  e_ok (fill n e) !! s = Some (default 0 (e_ok e !! s)).
Proof.
  intros Hs. destruct (fill_spec n e) as (_ & _ & Hturn).
  specialize (Hturn s Hs). unfold fill_turn, slot in Hturn. simpl in Hturn.
  by injection Hturn as -> -> ->.
Qed.

Lemma csv_part_at (parts : list string) s p :
  parts !! (s - 1)%nat = Some p → csv_part parts s = num_parse (JStr p).
Proof.
  intros Hp. unfold csv_part, py_index. rewrite Hp.
  rewrite bool_decide_true; [done|]. by apply lookup_lt_Some in Hp.
Qed.

Lemma num_parse_float (x : string) (y : pyfloat) :
  is_null_token (JStr x) = false → float_of_str x = Some y →
  num_parse (JStr x) = Ok (Some y).
Proof. intros Hx Hy. by rewrite num_parse_str, Hx, Hy. Qed.

(** * The claims *)

(** C9. The value parser never raises.  It returns no value for [None]
    and for the strings [""], ["null"] and ["None"]; on any other
    string it returns what [float] returns, and no value, not zero and
    not an exception, when [float] raises. *)
Theorem num_parse_contract (v : jval) :
  ∃ r, num_parse v = Ok r ∧
    match v with
    | JNull => r = None
    | JStr x =>
        if bool_decide (x ∈ [""; "null"; "None"]) then r = None
        else r = float_of_str x ∧
             py_float v = from_option Ok (Raise ValueError) r
    end.
Proof.
  destruct v as [|x]; [by exists None|].
  rewrite num_parse_str. eexists. split; [done|].
  unfold is_null_token.
  case_bool_decide as Hx.
  - rewrite !elem_of_cons in Hx.
    destruct Hx as [->|[->|[->|Hx]]]; [done..|]. by apply elem_of_nil in Hx.
  - rewrite !not_elem_of_cons in Hx. destruct Hx as (H1 & H2 & H3 & _).
    apply String.eqb_neq in H1, H2, H3. rewrite H1, H2, H3. simpl.
    by destruct (float_of_str x).
Qed.

(** C10. A reading of either feed whose [created_at] does not parse is
    skipped: its turn leaves the mapping as it was, the merge is the
    merge of the readings that do parse, the merge always returns, and
    two empty feeds merge to the empty list. *)
Theorem malformed_timestamp_skipped n T H :
  (∀ es f x, parse_created_at f = Raise x →
     ingest_temp n es f = Ok es ∧ ingest_hum n es f = Ok es) ∧
  parseThingSpeakMerge n T H =
    parseThingSpeakMerge n (well_stamped T) (well_stamped H) ∧
  (∃ out, parseThingSpeakMerge n T H = Ok out) ∧
  parseThingSpeakMerge n [] [] = Ok [].
Proof.
  split; [|split; [|split]].
  - intros es f x Hx. unfold ingest_temp, ingest_hum. by rewrite Hx.
  - destruct (ingest_keys n T H) as (es & Hes & _ & _ & Hes').
    by rewrite (merge_eq _ _ _ _ Hes), (merge_eq _ _ _ _ Hes').
  - destruct (ingest_keys n T H) as (es & Hes & _). eexists.
    by apply merge_eq.
  - done.
Qed.

(** C6. Every record of the output comes from a record [e0] of the
    mapping and has, for every sensor [s] of [1..SENSOR_COUNT], a [t],
    an [rh] and an [ok]: the one of [e0] when ingestion set it, else
    [None], [None] and [0].  It has none for any other [s]. *)
Theorem merged_records_complete n T H :
  ∃ es out, ingest n T H = Ok es ∧ parseThingSpeakMerge n T H = Ok out ∧
    ∀ e, e ∈ out →
      ∃ e0, e0 ∈ dict_values es ∧ e = fill n e0 ∧
        ∀ s,
          ((1 ≤ s ≤ n)%nat →
             e_t e !! s = Some (default None (e_t e0 !! s)) ∧
             e_rh e !! s = Some (default None (e_rh e0 !! s)) ∧
             e_ok e !! s = Some (default 0 (e_ok e0 !! s))) ∧
          (¬ (1 ≤ s ≤ n)%nat →
             e_t e !! s = None ∧ e_rh e !! s = None ∧ e_ok e !! s = None).
Proof.
  destruct (ingest_keys n T H) as (es & Hes & Hwf & _).
  exists es, (sort_by_timestamp (fill_all n es)).
  split; [done|]. split; [by apply merge_eq|].
  intros e He. rewrite sort_by_timestamp_perm in He.
  unfold fill_all in He. apply list_elem_of_fmap in He as (e0 & -> & He0).
  exists e0. do 2 (split; [done|]).
  unfold dict_values in He0.
  apply list_elem_of_fmap in He0 as ([k e1] & -> & Hin).
  simpl. destruct (fill_spec n e1) as (_ & Hframe & Hturn).
  destruct (Hwf _ _ Hin) as [_ Hout].
  intros s. split; intros Hs.
  - specialize (Hturn s Hs). unfold fill_turn, slot in Hturn. simpl in Hturn.
    by injection Hturn as -> -> ->.
  - specialize (Hframe s Hs). rewrite (Hout s Hs) in Hframe.
    unfold slot in Hframe. by injection Hframe as -> -> ->.
Qed.

(** C7. The output is sorted by timestamp, non-decreasing, and is the
    stable sort of the filled records taken in the order of the
    mapping: records of one instant keep that order.  Read by keys,
    that order is the order in which the keys are first met, along the
    temperature feed and then the humidity feed. *)
Theorem output_sorted_stable n T H :
  ∃ es out, ingest n T H = Ok es ∧ parseThingSpeakMerge n T H = Ok out ∧
    StronglySorted ts_le out ∧
    Permutation out (fill_all n es) ∧
    (∀ u, at_instant u out = at_instant u (fill_all n es)) ∧
    (λ e, round_min (timestamp e)) <$> fill_all n es =
      first_seen (feed_keys T ++ feed_keys H).
Proof.
  destruct (ingest_keys n T H) as (es & Hes & Hwf & Hkeys & _).
  exists es, (sort_by_timestamp (fill_all n es)).
  split; [done|]. split; [by apply merge_eq|].
  split; [apply sort_by_timestamp_sorted|].
  split; [apply sort_by_timestamp_perm|].
  split; [intros u; apply sort_by_timestamp_stable|].
  by rewrite fill_all_keys.
Qed.

(** C2. A humidity reading whose timestamp parses leaves, under its
    key, a record where for every sensor [s] of [1..min(SENSOR_COUNT,8)]
    [rh] is the parsed [field{s}] and [t] is as before; [ok] is [1]
    when the parsed value is present and not zero, whatever it was, and
    is as before (unset when it was unset) otherwise, so an [ok] of [1]
    stays [1]. *)
Theorem humidity_override n es f ts :
  parse_created_at f = Ok ts →
  ∃ es' e', ingest_hum n es f = Ok es' ∧
    dict_get es' (round_min ts) = Ok e' ∧
    ∀ s, (1 ≤ s ≤ Nat.min n 8)%nat →
      ∃ val, num_parse (py_get f (field_key s)) = Ok val ∧
        e_rh e' !! s = Some val ∧
        e_t e' !! s = e_t (record_before es ts) !! s ∧
        e_ok e' !! s =
          (if present_nonzero val then Some 1
           else e_ok (record_before es ts) !! s) ∧
        (e_ok (record_before es ts) !! s = Some 1 → e_ok e' !! s = Some 1).
Proof.
  intros Hts.
  destruct (hum_record_spec n f (record_before es ts))
    as (e' & He' & _ & _ & Hturn).
  destruct (ingest_hum_at _ _ _ _ _ Hts He') as [Hing Hget].
  exists (dict_set es (round_min ts) e'), e'. do 2 (split; [done|]).
  intros s Hs. destruct (Hturn s Hs) as (val & Hval & Hslot).
  unfold slot in Hslot. simpl in Hslot. injection Hslot as Ht Hrh Hok.
  exists val. do 3 (split; [done|]). split; [done|].
  intros H1. rewrite Hok, H1. by destruct (present_nonzero val).
Qed.

(** C1, as the code has it.  A temperature reading whose timestamp
    parses leaves, under its key, a record where for every sensor [s]
    of the loop [t] (and [rh], for a packed reading) is the newly
    parsed value, and [ok] is what it was when it was set already;
    when it was not, [ok] is set at once, to [1] or to [0]: for a
    packed reading [1] when [t] or [rh] has a value, for a legacy
    reading [1] when [t] has a value that is not zero. *)
Theorem temperature_first_touch n es f ts :
  parse_created_at f = Ok ts →
  ∃ es' e', ingest_temp n es f = Ok es' ∧
    dict_get es' (round_min ts) = Ok e' ∧
    if csv_detect (py_get f "field2") then
      ∃ tParts rhParts,
        jval_split (py_get f "field2") = Ok tParts ∧
        jval_split (jval_or_empty (py_get f "field3")) = Ok rhParts ∧
        ∀ s, (1 ≤ s ≤ n)%nat →
          ∃ tv hv, csv_part tParts s = Ok tv ∧ csv_part rhParts s = Ok hv ∧
            e_t e' !! s = Some tv ∧ e_rh e' !! s = Some hv ∧
            e_ok e' !! s =
              Some (match e_ok (record_before es ts) !! s with
                    | Some v => v
                    | None => if not_none tv || not_none hv then 1 else 0
                    end)
    else
      ∀ s, (1 ≤ s ≤ Nat.min n 8)%nat →
        ∃ val, num_parse (py_get f (field_key s)) = Ok val ∧
          e_t e' !! s = Some val ∧
          e_rh e' !! s = e_rh (record_before es ts) !! s ∧
          e_ok e' !! s =
            Some (match e_ok (record_before es ts) !! s with
                  | Some v => v
                  | None => if present_nonzero val then 1 else 0
                  end).
Proof.
  intros Hts. destruct (csv_detect (py_get f "field2")) eqn:Hcsv.
  - destruct (temp_record_csv n f (record_before es ts) Hcsv)
      as (tParts & rhParts & e' & HtP & HrP & He' & _ & _ & Hturn).
    destruct (ingest_temp_at _ _ _ _ _ Hts He') as [Hing Hget].
    exists (dict_set es (round_min ts) e'), e'. do 2 (split; [done|]).
    exists tParts, rhParts. do 2 (split; [done|]).
    intros s Hs. destruct (Hturn s Hs) as (tv & hv & Htv & Hhv & Hslot).
    unfold slot in Hslot. simpl in Hslot. injection Hslot as Ht Hrh Hok.
    by exists tv, hv.
  - destruct (temp_record_legacy n f (record_before es ts) Hcsv)
      as (e' & He' & _ & _ & Hturn).
    destruct (ingest_temp_at _ _ _ _ _ Hts He') as [Hing Hget].
    exists (dict_set es (round_min ts) e'), e'. do 2 (split; [done|]).
    intros s Hs. destruct (Hturn s Hs) as (val & Hval & Hslot).
    unfold slot in Hslot. simpl in Hslot. injection Hslot as Ht Hrh Hok.
    by exists val.
Qed.

(** C3. A legacy reading whose [field{s}] parses to a value [z] with
    [z == 0] sets [t] to [z] and, where [ok] was not set, [ok] to [0];
    merged alone, it gives one record with that [t] and [ok = 0]. *)
Theorem legacy_zero_is_invalid n es f ts s z :
  parse_created_at f = Ok ts →
  csv_detect (py_get f "field2") = false →
  (1 ≤ s ≤ Nat.min n 8)%nat →
  num_parse (py_get f (field_key s)) = Ok (Some z) →
  float_is_zero z = true →
  (e_ok (record_before es ts) !! s = None →
   ∃ es' e', ingest_temp n es f = Ok es' ∧
     dict_get es' (round_min ts) = Ok e' ∧
     e_t e' !! s = Some (Some z) ∧ e_ok e' !! s = Some 0) ∧
  ∃ out, parseThingSpeakMerge n [f] [] = Ok [out] ∧ timestamp out = ts ∧
    e_t out !! s = Some (Some z) ∧ e_ok out !! s = Some 0.
Proof.
  intros Hts Hcsv Hs Hz Hzero.
  assert (∀ e, e_ok e !! s = None →
            ∃ e', temp_record n f e = Ok e' ∧ timestamp e' = timestamp e ∧
              e_t e' !! s = Some (Some z) ∧ e_ok e' !! s = Some 0) as Hrec.
  { intros e Hok.
    destruct (temp_record_legacy n f e Hcsv) as (e' & He' & Hts' & _ & Hturn).
    destruct (Hturn s Hs) as (val & Hval & Hslot).
    rewrite Hz in Hval. injection Hval as <-.
    unfold slot in Hslot. simpl in Hslot. injection Hslot as Ht Hrh Hok'.
    exists e'. do 3 (split; [done|]).
    rewrite Hok', Hok. simpl. by rewrite Hzero. }
  split.
  - intros Hok. destruct (Hrec _ Hok) as (e' & He' & _ & Ht & Hok').
    destruct (ingest_temp_at _ _ _ _ _ Hts He') as [Hing Hget]. eauto 10.
  - destruct (Hrec (new_entry ts) (lookup_empty s))
      as (e' & He' & Hts' & Ht & Hok').
    exists (fill n e'). split; [by apply (merge_single_temp n f ts e')|].
    destruct (fill_spec n e') as (-> & _).
    split; [done|].
    destruct (fill_lookup n e' s) as (-> & _ & ->); [lia|].
    by rewrite Ht, Hok'.
Qed.

(** C4. The humidity loop assigns [rh] whatever was parsed.  After a
    packed reading put a value in [rh] of sensor [s], a humidity
    reading of the same key whose [field{s}] is missing or null leaves
    [rh] at [None], [t] as the packed reading set it and [ok] as it
    was; when the packed reading had no [t] for [s], the merge of the
    two readings is one record with [ok = 1] and neither [t] nor [rh]. *)
Theorem humidity_clears_rh n es ft fh ts ts' s tParts rhParts tv x :
  parse_created_at ft = Ok ts →
  parse_created_at fh = Ok ts' →
  round_min ts' = round_min ts →
  csv_detect (py_get ft "field2") = true →
  jval_split (py_get ft "field2") = Ok tParts →
  jval_split (jval_or_empty (py_get ft "field3")) = Ok rhParts →
  (1 ≤ s ≤ Nat.min n 8)%nat →
  csv_part tParts s = Ok tv →
  csv_part rhParts s = Ok (Some x) →
  py_get fh (field_key s) = JNull →
  ∃ es1 e1 es2 e2,
    ingest_temp n es ft = Ok es1 ∧ dict_get es1 (round_min ts) = Ok e1 ∧
    e_rh e1 !! s = Some (Some x) ∧
    ingest_hum n es1 fh = Ok es2 ∧ dict_get es2 (round_min ts) = Ok e2 ∧
    e_t e2 !! s = Some tv ∧ e_rh e2 !! s = Some None ∧
    e_ok e2 !! s = e_ok e1 !! s ∧
    (tv = None →
     ∃ out, parseThingSpeakMerge n [ft] [fh] = Ok [out] ∧
       e_t out !! s = Some None ∧ e_rh out !! s = Some None ∧
       e_ok out !! s = Some 1).
Proof.
  intros Hts Hts' Hk Hcsv HtP HrP Hs Htv Hhv Hnull.
  assert (∀ e, ∃ e1 e2,
            temp_record n ft e = Ok e1 ∧ hum_record n fh e1 = Ok e2 ∧
            e_t e1 !! s = Some tv ∧ e_rh e1 !! s = Some (Some x) ∧
            e_ok e1 !! s = Some (match e_ok e !! s with
                                 | Some v => v
                                 | None => 1
                                 end) ∧
            e_t e2 !! s = Some tv ∧ e_rh e2 !! s = Some None ∧
            e_ok e2 !! s = e_ok e1 !! s) as Hrec.
  { intros e.
    destruct (temp_record_csv n ft e Hcsv)
      as (tP & rP & e1 & HtP' & HrP' & He1 & _ & _ & Hturn1).
    rewrite HtP in HtP'. rewrite HrP in HrP'.
    injection HtP' as <-. injection HrP' as <-.
    destruct (Hturn1 s) as (tv' & hv' & Htv' & Hhv' & Hslot1); [lia|].
    rewrite Htv in Htv'. rewrite Hhv in Hhv'.
    injection Htv' as <-. injection Hhv' as <-.
    unfold slot in Hslot1. simpl in Hslot1. injection Hslot1 as Ht1 Hrh1 Hok1.
    destruct (hum_record_spec n fh e1) as (e2 & He2 & _ & _ & Hturn2).
    destruct (Hturn2 s Hs) as (val & Hval & Hslot2).
    rewrite Hnull, num_parse_null in Hval. injection Hval as <-.
    unfold slot in Hslot2. simpl in Hslot2. injection Hslot2 as Ht2 Hrh2 Hok2.
    exists e1, e2. do 3 (split; [done|]). split; [done|].
    split; [rewrite Hok1; by rewrite orb_true_r|].
    split; [congruence|]. done. }
  destruct (Hrec (record_before es ts))
    as (e1 & e2 & He1 & He2 & Ht1 & Hrh1 & Hok1 & Ht2 & Hrh2 & Hok2).
  destruct (ingest_temp_at _ _ _ _ _ Hts He1) as [Hing1 Hget1].
  rewrite <- (record_before_set es ts ts' e1 Hk) in He2.
  destruct (ingest_hum_at _ _ _ _ _ Hts' He2) as [Hing2 Hget2].
  rewrite Hk in Hing2, Hget2.
  eexists _, e1, _, e2. do 8 (split; [done|]).
  intros ->. clear dependent e1 e2.
  destruct (Hrec (new_entry ts))
    as (e1 & e2 & He1 & He2 & Ht1 & Hrh1 & Hok1 & Ht2 & Hrh2 & Hok2).
  exists (fill n e2).
  split; [by apply (merge_temp_hum n ft fh ts ts' e1 e2)|].
  destruct (fill_lookup n e2 s) as (-> & -> & ->); [lia|].
  rewrite Ht2, Hrh2, Hok2, Hok1. done.
Qed.

(** C8. The turn of a packed reading always returns.  When its
    timestamp parses, the record under its key has [t = None] for every
    sensor of [1..SENSOR_COUNT] beyond the parts of [field2], and
    [rh = None] for every sensor beyond the parts of [field3], which
    are all of them when [field3] is missing or null. *)
Theorem csv_split_robust n es f :
  csv_detect (py_get f "field2") = true →
  ∃ tParts rhParts es',
    jval_split (py_get f "field2") = Ok tParts ∧
    jval_split (jval_or_empty (py_get f "field3")) = Ok rhParts ∧
    ingest_temp n es f = Ok es' ∧
    ∀ ts, parse_created_at f = Ok ts →
      ∃ e', dict_get es' (round_min ts) = Ok e' ∧
        ∀ s, (1 ≤ s ≤ n)%nat →
          ((length tParts < s)%nat → e_t e' !! s = Some None) ∧
          ((length rhParts < s)%nat → e_rh e' !! s = Some None) ∧
          (py_get f "field3" = JNull → e_rh e' !! s = Some None).
Proof.
  intros Hcsv. destruct (parse_created_at f) as [ts|x] eqn:Hts.
  - destruct (temp_record_csv n f (record_before es ts) Hcsv)
      as (tParts & rhParts & e' & HtP & HrP & He' & _ & _ & Hturn).
    destruct (ingest_temp_at _ _ _ _ _ Hts He') as [Hing Hget].
    exists tParts, rhParts, (dict_set es (round_min ts) e').
    do 3 (split; [done|]). intros ? [= <-]. exists e'. split; [done|].
    intros s Hs. destruct (Hturn s Hs) as (tv & hv & Htv & Hhv & Hslot).
    unfold slot in Hslot. simpl in Hslot. injection Hslot as Ht Hrh Hok.
    split; [|split].
    + intros Hlen. rewrite csv_part_short in Htv by lia. congruence.
    + intros Hlen. rewrite csv_part_short in Hhv by lia. congruence.
    + intros Hnull. rewrite Hnull in HrP. injection HrP as <-.
      destruct (decide (s = 1%nat)) as [->|Hne].
      * change (csv_part [""] 1) with (Ok (@None pyfloat)) in Hhv. congruence.
      * rewrite csv_part_short in Hhv by (simpl; lia). congruence.
  - destruct (csv_detect_str _ Hcsv) as [x2 Hx2].
    destruct (jval_or_empty_str (py_get f "field3")) as [x3 Hx3].
    exists (str_split "," x2), (str_split "," x3), es.
    rewrite Hx2, Hx3. do 2 (split; [done|]).
    split; [unfold ingest_temp; by rewrite Hts|]. done.
Qed.

(** C5. With five sensors, the packed reading of 2026-02-25T10:00:00Z
    with [field2 = "21.5,22.0"] and [field3 = "40,41"], merged with an
    empty humidity feed, gives one record: its timestamp is the parsed
    one, sensors 1 and 2 have the parsed [t] and [rh] and [ok = 1],
    sensors 3 to 5 have [None], [None] and [0], and there is no other
    key. *)
Theorem packed_example (ts : datetime) (a b c d : pyfloat) :
  fromisoformat "2026-02-25T10:00:00+00:00" = Some ts →
  float_of_str "21.5" = Some a →
  float_of_str "22.0" = Some b →
  float_of_str "40" = Some c →
  float_of_str "41" = Some d →
  ∃ out, parseThingSpeakMerge SENSOR_COUNT [packed_reading] [] = Ok [out] ∧
    timestamp out = ts ∧
    e_t out = {[ 1%nat := Some a; 2%nat := Some b; 3%nat := None;
                 4%nat := None; 5%nat := None ]} ∧
    e_rh out = {[ 1%nat := Some c; 2%nat := Some d; 3%nat := None;
                  4%nat := None; 5%nat := None ]} ∧
    e_ok out = {[ 1%nat := 1; 2%nat := 1; 3%nat := 0; 4%nat := 0;
                  5%nat := 0 ]}.
Proof.
  intros Hts Ha Hb Hc Hd. unfold SENSOR_COUNT.
  assert (parse_created_at packed_reading = Ok ts) as Hparse.
  { unfold parse_created_at.
    change (py_fromisoformat "2026-02-25T10:00:00+00:00" = Ok ts).
    unfold py_fromisoformat. by rewrite Hts. }
  assert (csv_detect (py_get packed_reading "field2") = true) as Hcsv by done.
  destruct (temp_record_csv 5 packed_reading (new_entry ts) Hcsv)
    as (tP & rP & e' & HtP & HrP & He' & Hts' & Hframe & Hturn).
  change (Ok ["21.5"; "22.0"] = Ok tP) in HtP. injection HtP as <-.
  change (Ok ["40"; "41"] = Ok rP) in HrP. injection HrP as <-.
  exists (fill 5 e'). split; [by apply (merge_single_temp 5 _ ts e')|].
  destruct (fill_spec 5 e') as (Hfts & Hfframe & _).
  split; [by rewrite Hfts, Hts'|].
  assert (∀ s, slot (fill 5 e') s =
               (({[ 1%nat := Some a; 2%nat := Some b; 3%nat := None;
                    4%nat := None; 5%nat := None ]}
                 : gmap nat (option pyfloat)) !! s,
                ({[ 1%nat := Some c; 2%nat := Some d; 3%nat := None;
                    4%nat := None; 5%nat := None ]}
                 : gmap nat (option pyfloat)) !! s,
                ({[ 1%nat := 1; 2%nat := 1; 3%nat := 0; 4%nat := 0;
                    5%nat := 0 ]} : gmap nat Z) !! s)) as Hslots.
  { intros s. destruct (decide (1 ≤ s ≤ 5)%nat) as [Hs|Hs].
    - destruct (fill_lookup 5 e' s Hs) as (Ht & Hrh & Hok).
      destruct (Hturn s Hs) as (tv & hv & Htv & Hhv & Hslot).
      unfold slot in *. simpl in Hslot. injection Hslot as Ht' Hrh' Hok'.
      rewrite Ht, Hrh, Hok, Ht', Hrh', Hok'. simpl.
      clear Ht Hrh Hok Ht' Hrh' Hok'.
      assert (s = 1 ∨ s = 2 ∨ s = 3 ∨ s = 4 ∨ s = 5)%nat
        as [->|[->|[->|[->| ->]]]] by lia.
      + rewrite (csv_part_at _ 1 "21.5"), (num_parse_float _ a) in Htv by done.
        rewrite (csv_part_at _ 1 "40"), (num_parse_float _ c) in Hhv by done.
        by simplify_eq.
      + rewrite (csv_part_at _ 2 "22.0"), (num_parse_float _ b) in Htv by done.
        rewrite (csv_part_at _ 2 "41"), (num_parse_float _ d) in Hhv by done.
        by simplify_eq.
      + rewrite csv_part_short in Htv, Hhv by (simpl; lia). by simplify_eq.
      + rewrite csv_part_short in Htv, Hhv by (simpl; lia). by simplify_eq.
      + rewrite csv_part_short in Htv, Hhv by (simpl; lia). by simplify_eq.
    - rewrite Hfframe, Hframe by done. unfold slot, new_entry.
      cbn [e_t e_rh e_ok].
      rewrite !lookup_insert_ne, !lookup_singleton_ne by lia.
      by rewrite !lookup_empty. }
  split; [|split]; apply map_eq; intros s; specialize (Hslots s);
    unfold slot in Hslots; by simplify_eq.
Qed.

End Facts.

(** * The theorems at the sample feeds, on the [CPython] runtime *)

(** The first-touch rule at the packed reading, on a fresh mapping *)
Lemma temperature_first_touch_witness :
  parse_created_at packed_reading = Ok stamp_10_00_00 ∧
  ∃ es' e', ingest_temp 5 [] packed_reading = Ok es' ∧
    dict_get es' (round_min stamp_10_00_00) = Ok e' ∧
    if csv_detect (py_get packed_reading "field2") then
      ∃ tParts rhParts,
        jval_split (py_get packed_reading "field2") = Ok tParts ∧
        jval_split (jval_or_empty (py_get packed_reading "field3"))
          = Ok rhParts ∧
        ∀ s, (1 ≤ s ≤ 5)%nat →
          ∃ tv hv, csv_part tParts s = Ok tv ∧ csv_part rhParts s = Ok hv ∧
            e_t e' !! s = Some tv ∧ e_rh e' !! s = Some hv ∧
            e_ok e' !! s =
              Some (match e_ok (record_before [] stamp_10_00_00) !! s with
                    | Some v => v
                    | None => if not_none tv || not_none hv then 1 else 0
                    end)
    else
      ∀ s, (1 ≤ s ≤ Nat.min 5 8)%nat →
        ∃ val, num_parse (py_get packed_reading (field_key s)) = Ok val ∧
          e_t e' !! s = Some val ∧
          e_rh e' !! s = e_rh (record_before [] stamp_10_00_00) !! s ∧
          e_ok e' !! s =
            Some (match e_ok (record_before [] stamp_10_00_00) !! s with
                  | Some v => v
                  | None => if present_nonzero val then 1 else 0
                  end).
Proof.
  split; [vm_compute; reflexivity|].
  apply (temperature_first_touch 5 [] packed_reading stamp_10_00_00).
  vm_compute; reflexivity.
Defined.

(** The override rule at a humidity reading with a value, a zero and
    a null *)
Lemma humidity_override_witness :
  parse_created_at humidity_reading = Ok stamp_10_00_20 ∧
  ∃ es' e', ingest_hum 5 [] humidity_reading = Ok es' ∧
    dict_get es' (round_min stamp_10_00_20) = Ok e' ∧
    ∀ s, (1 ≤ s ≤ Nat.min 5 8)%nat →
      ∃ val, num_parse (py_get humidity_reading (field_key s)) = Ok val ∧
        e_rh e' !! s = Some val ∧
        e_t e' !! s = e_t (record_before [] stamp_10_00_20) !! s ∧
        e_ok e' !! s =
          (if present_nonzero val then Some 1
           else e_ok (record_before [] stamp_10_00_20) !! s) ∧
        (e_ok (record_before [] stamp_10_00_20) !! s = Some 1 →
         e_ok e' !! s = Some 1).
Proof.
  split; [vm_compute; reflexivity|].
  apply (humidity_override 5 [] humidity_reading stamp_10_00_20).
  vm_compute; reflexivity.
Defined.

(** The legacy reading ["0"]: [t1 = 0.0] and [ok1 = 0] *)
Lemma legacy_zero_is_invalid_witness :
  parse_created_at zero_legacy_reading = Ok stamp_10_00_00 ∧
  csv_detect (py_get zero_legacy_reading "field2") = false ∧
  (1 ≤ 1 ≤ Nat.min 5 8)%nat ∧
  num_parse (py_get zero_legacy_reading (field_key 1)) =
    Ok (Some (0%float : @pyfloat CPython.runtime)) ∧
  float_is_zero (0%float : @pyfloat CPython.runtime) = true ∧
  (e_ok (record_before [] stamp_10_00_00) !! 1%nat = None →
   ∃ es' e', ingest_temp 5 [] zero_legacy_reading = Ok es' ∧
     dict_get es' (round_min stamp_10_00_00) = Ok e' ∧
     e_t e' !! 1%nat = Some (Some 0%float) ∧ e_ok e' !! 1%nat = Some 0) ∧
  ∃ out, parseThingSpeakMerge 5 [zero_legacy_reading] [] = Ok [out] ∧
    timestamp out = stamp_10_00_00 ∧
    e_t out !! 1%nat = Some (Some 0%float) ∧ e_ok out !! 1%nat = Some 0.
Proof.
  do 5 (split; [vm_compute; first [reflexivity | lia]|]).
  apply (legacy_zero_is_invalid 5 [] zero_legacy_reading stamp_10_00_00 1
           0%float); vm_compute; first [reflexivity | lia].
Defined.

(** A packed reading with [rh1 = 40] and no [t1], then a humidity
    reading of the same minute with no [field1] *)
Lemma humidity_clears_rh_witness :
  parse_created_at half_packed_reading = Ok stamp_10_00_00 ∧
  parse_created_at bare_humidity_reading = Ok stamp_10_00_20 ∧
  round_min stamp_10_00_20 = round_min stamp_10_00_00 ∧
  csv_detect (py_get half_packed_reading "field2") = true ∧
  jval_split (py_get half_packed_reading "field2") = Ok [""; "22.0"] ∧
  jval_split (jval_or_empty (py_get half_packed_reading "field3"))
    = Ok ["40"; "41"] ∧
  (1 ≤ 1 ≤ Nat.min 5 8)%nat ∧
  csv_part [""; "22.0"] 1 = Ok (None : option (@pyfloat CPython.runtime)) ∧
  csv_part ["40"; "41"] 1 = Ok (Some (40%float : @pyfloat CPython.runtime)) ∧
  py_get bare_humidity_reading (field_key 1) = JNull ∧
  ∃ es1 e1 es2 e2,
    ingest_temp 5 [] half_packed_reading = Ok es1 ∧
    dict_get es1 (round_min stamp_10_00_00) = Ok e1 ∧
    e_rh e1 !! 1%nat = Some (Some 40%float) ∧
    ingest_hum 5 es1 bare_humidity_reading = Ok es2 ∧
    dict_get es2 (round_min stamp_10_00_00) = Ok e2 ∧
    e_t e2 !! 1%nat = Some None ∧ e_rh e2 !! 1%nat = Some None ∧
    e_ok e2 !! 1%nat = e_ok e1 !! 1%nat ∧
    ((None : option (@pyfloat CPython.runtime)) = None →
     ∃ out,
       parseThingSpeakMerge 5 [half_packed_reading] [bare_humidity_reading]
         = Ok [out] ∧
       e_t out !! 1%nat = Some None ∧ e_rh out !! 1%nat = Some None ∧
       e_ok out !! 1%nat = Some 1).
Proof.
  do 10 (split; [vm_compute; first [reflexivity | lia]|]).
  apply (humidity_clears_rh 5 [] half_packed_reading bare_humidity_reading
           stamp_10_00_00 stamp_10_00_20 1 [""; "22.0"] ["40"; "41"] None
           40%float); vm_compute; first [reflexivity | lia].
Defined.

(** The end-to-end example on binary64 floats *)
Lemma packed_example_witness :
  fromisoformat "2026-02-25T10:00:00+00:00" = Some stamp_10_00_00 ∧
  float_of_str "21.5" = Some (21.5%float : @pyfloat CPython.runtime) ∧
  float_of_str "22.0" = Some (22%float : @pyfloat CPython.runtime) ∧
  float_of_str "40" = Some (40%float : @pyfloat CPython.runtime) ∧
  float_of_str "41" = Some (41%float : @pyfloat CPython.runtime) ∧
  ∃ out, parseThingSpeakMerge SENSOR_COUNT [packed_reading] [] = Ok [out] ∧
    timestamp out = stamp_10_00_00 ∧
    e_t out = {[ 1%nat := Some 21.5%float; 2%nat := Some 22%float;
                 3%nat := None; 4%nat := None; 5%nat := None ]} ∧
    e_rh out = {[ 1%nat := Some 40%float; 2%nat := Some 41%float;
                  3%nat := None; 4%nat := None; 5%nat := None ]} ∧
    e_ok out = {[ 1%nat := 1; 2%nat := 1; 3%nat := 0; 4%nat := 0;
                  5%nat := 0 ]}.
Proof.
  do 5 (split; [vm_compute; reflexivity|]).
  apply (packed_example stamp_10_00_00 21.5%float 22%float 40%float 41%float);
    vm_compute; reflexivity.
Defined.

(** Two parts for five sensors *)
Lemma csv_split_robust_witness :
  csv_detect (py_get packed_reading "field2") = true ∧
  ∃ tParts rhParts es',
    jval_split (py_get packed_reading "field2") = Ok tParts ∧
    jval_split (jval_or_empty (py_get packed_reading "field3")) = Ok rhParts ∧
    ingest_temp 5 [] packed_reading = Ok es' ∧
    ∀ ts, parse_created_at packed_reading = Ok ts →
      ∃ e', dict_get es' (round_min ts) = Ok e' ∧
        ∀ s, (1 ≤ s ≤ 5)%nat →
          ((length tParts < s)%nat → e_t e' !! s = Some None) ∧
          ((length rhParts < s)%nat → e_rh e' !! s = Some None) ∧
          (py_get packed_reading "field3" = JNull → e_rh e' !! s = Some None).
Proof.
  split; [vm_compute; reflexivity|].
  apply (csv_split_robust 5 [] packed_reading). vm_compute; reflexivity.
Defined.

(** C1, as the spec has it, fails.  On a fresh record the packed reading
    [","] has no value for sensor 1 and yet sets [ok] to [0] at once;
    the packed reading that follows under the same key puts 21.5 and 40
    in [t] and [rh] and cannot raise [ok], which is [0] in the output.
    And the legacy reading ["0"] has a [t], yet its first touch sets
    [ok] to [0]. *)
Lemma first_touch_sets_zero_at_once :
  ∃ es1 e1 es2 e2 out es3 e3,
    ingest_temp 5 [] blank_packed_reading = Ok es1 ∧
    dict_get es1 (round_min stamp_10_00_00) = Ok e1 ∧
    e_t e1 !! 1%nat = Some None ∧ e_rh e1 !! 1%nat = Some None ∧
    e_ok e1 !! 1%nat = Some 0 ∧
    ingest_temp 5 es1 packed_reading = Ok es2 ∧
    dict_get es2 (round_min stamp_10_00_00) = Ok e2 ∧
    e_t e2 !! 1%nat = Some (Some 21.5%float) ∧
    e_rh e2 !! 1%nat = Some (Some 40%float) ∧
    e_ok e2 !! 1%nat = Some 0 ∧
    parseThingSpeakMerge 5 [blank_packed_reading; packed_reading] []
      = Ok [out] ∧
    e_t out !! 1%nat = Some (Some 21.5%float) ∧
    e_ok out !! 1%nat = Some 0 ∧
    ingest_temp 5 [] zero_legacy_reading = Ok es3 ∧
    dict_get es3 (round_min stamp_10_00_00) = Ok e3 ∧
    e_t e3 !! 1%nat = Some (Some 0%float) ∧
    e_ok e3 !! 1%nat = Some 0.
Proof.
  exists_result (ingest_temp 5 [] blank_packed_reading).
  exists_result (es ← ingest_temp 5 [] blank_packed_reading;
                 dict_get es (round_min stamp_10_00_00)).
  exists_result (es ← ingest_temp 5 [] blank_packed_reading;
                 ingest_temp 5 es packed_reading).
  exists_result (es ← ingest_temp 5 [] blank_packed_reading;
                 es ← ingest_temp 5 es packed_reading;
                 dict_get es (round_min stamp_10_00_00)).
  exists_result (parseThingSpeakMerge 5 [blank_packed_reading; packed_reading] []
                   ≫= head_of).
  exists_result (ingest_temp 5 [] zero_legacy_reading).
  exists_result (es ← ingest_temp 5 [] zero_legacy_reading;
                 dict_get es (round_min stamp_10_00_00)).
  repeat split; vm_compute; reflexivity.
Qed.

(** * Beyond the claims: the merge *)

Section MergeFacts.
Context {B : PyBuiltins}.

Implicit Types (e : entry) (s : nat) (f : reading) (d es : keymap).

Lemma ingest_temp_with n : ingest_temp n = ingest_with (temp_record n).
Proof. done. Qed.

Lemma ingest_hum_with n : ingest_hum n = ingest_with (hum_record n).
Proof. done. Qed.

Lemma ingest_with_stamped body es f ts :
  parse_created_at f = Ok ts →
  ingest_with body es f =
  (e' ← body f (record_before es ts); Ok (dict_set es (round_min ts) e')).
Proof. intros Hts. unfold ingest_with. rewrite Hts. apply with_record_eq. Qed.

(** ** Records of other keys *)

Lemma ingest_with_frame R body es f k :
  body_keeps R body →
  (∀ ts, parse_created_at f = Ok ts → round_min ts ≠ k) →
  ∃ es', ingest_with body es f = Ok es' ∧ dict_get es' k = dict_get es k.
Proof.
  intros Hbody Hk. destruct (parse_created_at f) as [ts|x] eqn:Hts.
  - rewrite (ingest_with_stamped _ _ _ _ Hts).
    destruct (Hbody f (record_before es ts)) as (e' & -> & _). simpl.
    eexists. split; [done|]. apply dict_get_set_ne. by apply Hk.
  - unfold ingest_with. rewrite Hts. by exists es.
Qed.

Lemma off_key_cons k f feed :
  off_key k (f :: feed) →
  (∀ ts, parse_created_at f = Ok ts → round_min ts ≠ k) ∧ off_key k feed.
Proof.
  intros Hoff. split.
  - intros ts. apply Hoff. apply elem_of_cons. by left.
  - intros g ts Hg. apply Hoff. apply elem_of_cons. by right.
Qed.

Lemma for_each_frame R body feed es k :
  body_keeps R body → off_key k feed →
  ∃ es', for_each feed (ingest_with body) es = Ok es' ∧
    dict_get es' k = dict_get es k.
Proof.
  intros Hbody. revert es. induction feed as [|f feed IH]; intros es Hoff.
  - by exists es.
  - apply off_key_cons in Hoff as [Hf Hoff].
    destruct (ingest_with_frame R body es f k Hbody Hf) as (es1 & Hes1 & Hk1).
    destruct (IH es1 Hoff) as (es' & Hes' & Hk').
    exists es'. simpl. rewrite Hes1. simpl. split; [done|congruence].
Qed.

(** ** A record through further readings *)

Lemma ingest_with_keeps (R : entry → entry → Prop) body es f k e :
  (∀ e, R e e) → body_keeps R body →
  dict_get es k = Ok e →
  ∃ es' e', ingest_with body es f = Ok es' ∧ dict_get es' k = Ok e' ∧ R e e'.
Proof.
  intros Hrefl Hbody Hget. destruct (parse_created_at f) as [ts|x] eqn:Hts.
  - rewrite (ingest_with_stamped _ _ _ _ Hts).
    destruct (Hbody f (record_before es ts)) as (e' & He' & HR).
    rewrite He'. simpl.
    destruct (decide (round_min ts = k)) as [<-|Hne].
    + exists (dict_set es (round_min ts) e'), e'.
      rewrite dict_get_set_eq. do 2 (split; [done|]).
      unfold record_before in HR. by rewrite Hget in HR.
    + exists (dict_set es (round_min ts) e'), e.
      rewrite dict_get_set_ne by done. done.
  - unfold ingest_with. rewrite Hts. by exists es, e.
Qed.

Lemma for_each_keeps (R : entry → entry → Prop) body feed es k e :
  (∀ e, R e e) → (∀ e1 e2 e3, R e1 e2 → R e2 e3 → R e1 e3) →
  body_keeps R body →
  dict_get es k = Ok e →
  ∃ es' e', for_each feed (ingest_with body) es = Ok es' ∧
    dict_get es' k = Ok e' ∧ R e e'.
Proof.
  intros Hrefl Htrans Hbody. revert es e.
  induction feed as [|f feed IH]; intros es e Hget.
  - by exists es, e.
  - destruct (ingest_with_keeps R body es f k e Hrefl Hbody Hget)
      as (es1 & e1 & Hes1 & Hget1 & HR1).
    destruct (IH es1 e1 Hget1) as (es' & e' & Hes' & Hget' & HR').
    exists es', e'. simpl. rewrite Hes1. simpl. eauto.
Qed.

(** ** An invariant of the records *)

Lemma for_each_records (P : entry → Prop) body feed es :
  (∀ ts, P (new_entry ts)) →
  (∀ f e, f ∈ feed → P e → ∃ e', body f e = Ok e' ∧ P e') →
  (∀ k e, (k, e) ∈ es → P e) →
  ∃ es', for_each feed (ingest_with body) es = Ok es' ∧
    ∀ k e, (k, e) ∈ es' → P e.
Proof.
  intros Hnew. revert es. induction feed as [|f feed IH]; intros es Hbody Hes.
  - by exists es.
  - assert (∃ es1, ingest_with body es f = Ok es1 ∧
                   ∀ k e, (k, e) ∈ es1 → P e) as (es1 & Hes1 & HP1).
    { destruct (parse_created_at f) as [ts|x] eqn:Hts.
      - rewrite (ingest_with_stamped _ _ _ _ Hts).
        assert (P (record_before es ts)) as Hbefore.
        { unfold record_before.
          destruct (dict_get es (round_min ts)) as [e|] eqn:Hget; [|done].
          apply dict_get_elem in Hget. by eapply Hes. }
        destruct (Hbody f (record_before es ts)) as (e' & -> & He');
          [apply elem_of_cons; by left|done|].
        eexists. split; [done|]. intros k e Hin.
        apply dict_set_elem in Hin as [[-> ->]|Hin]; [done|by eapply Hes].
      - unfold ingest_with. rewrite Hts. by exists es. }
    destruct (IH es1) as (es' & Hes' & HP'); [|done|].
    { intros g e Hg. apply Hbody. apply elem_of_cons. by right. }
    exists es'. simpl. rewrite Hes1. done.
Qed.

Lemma for_each_app {A S} (body : S → A → res S) (l1 l2 : list A) (st : S) :
  for_each (l1 ++ l2) body st = (st' ← for_each l1 body st; for_each l2 body st').
Proof.
  revert st. induction l1 as [|x l1 IH]; intros st; simpl; [done|].
  destruct (body st x); simpl; [apply IH|done].
Qed.

(** ** Keys *)

Lemma see_elem acc k k' : k' ∈ see acc k ↔ k' ∈ acc ∨ k' = k.
Proof.
  unfold see. case_bool_decide as Hk.
  - split; [by left|]. intros [?| ->]; done.
  - rewrite elem_of_app, list_elem_of_singleton. done.
Qed.

Lemma see_NoDup acc k : NoDup acc → NoDup (see acc k).
Proof.
  intros Hnd. unfold see. case_bool_decide as Hk; [done|].
  apply NoDup_app. split; [done|]. split; [|apply NoDup_singleton].
  intros x Hx Hx'. apply list_elem_of_singleton in Hx' as ->. done.
Qed.

Lemma foldl_see_elem ks acc k : k ∈ foldl see acc ks ↔ k ∈ acc ∨ k ∈ ks.
Proof.
  revert acc. induction ks as [|k0 ks IH]; intros acc; simpl.
  - split; [by left|]. intros [?|H]; [done|]. by apply elem_of_nil in H.
  - rewrite IH, see_elem, elem_of_cons. tauto.
Qed.

Lemma foldl_see_NoDup ks acc : NoDup acc → NoDup (foldl see acc ks).
Proof.
  revert acc. induction ks as [|k0 ks IH]; intros acc Hnd; simpl; [done|].
  apply IH. by apply see_NoDup.
Qed.

Lemma first_seen_elem ks k : k ∈ first_seen ks ↔ k ∈ ks.
Proof.
  unfold first_seen. rewrite foldl_see_elem. split; [|by right].
  intros [H|H]; [by apply elem_of_nil in H|done].
Qed.

Lemma first_seen_NoDup ks : NoDup (first_seen ks).
Proof. apply foldl_see_NoDup. constructor. Qed.

Lemma dict_get_NoDup d k e : NoDup d.*1 → (k, e) ∈ d → dict_get d k = Ok e.
Proof.
  induction d as [|[k0 e0] d IH]; csimpl; intros Hnd Hin.
  - by apply elem_of_nil in Hin.
  - apply NoDup_cons in Hnd as [Hk0 Hnd].
    apply elem_of_cons in Hin as [[= -> ->]|Hin].
    + by rewrite Z.eqb_refl.
    + destruct (Z.eqb k0 k) eqn:Hk; [|by apply IH].
      apply Z.eqb_eq in Hk as ->. exfalso. apply Hk0.
      apply list_elem_of_fmap. by exists (k, e).
Qed.

(** What line 36 to 86 compute, feed by feed *)
Lemma ingest_split n T H :
  ingest n T H =
  (es1 ← for_each T (ingest_with (temp_record n)) [];
   for_each H (ingest_with (hum_record n)) es1).
Proof.
  unfold ingest. rewrite ingest_feed_for_each.
  destruct (for_each T (ingest_temp n) []) as [es1|x] eqn:H1;
    rewrite ingest_temp_with in H1; rewrite H1; simpl; [|done].
  by rewrite ingest_feed_for_each.
Qed.

(** A record of the mapping, in the output *)
Lemma output_of_record n T H es k e :
  ingest n T H = Ok es → dict_get es k = Ok e →
  ∃ out, parseThingSpeakMerge n T H = Ok out ∧ fill n e ∈ out ∧
    key_of (fill n e) = k.
Proof.
  intros Hes Hget. exists (sort_by_timestamp (fill_all n es)).
  split; [by apply merge_eq|].
  destruct (ingest_keys n T H) as (es0 & Hes0 & Hwf & _).
  rewrite Hes in Hes0. injection Hes0 as <-.
  apply dict_get_elem in Hget. split.
  - rewrite sort_by_timestamp_perm. unfold fill_all, dict_values.
    apply list_elem_of_fmap. exists e. split; [done|].
    apply list_elem_of_fmap. by exists (k, e).
  - unfold key_of. destruct (fill_spec n e) as [-> _].
    symmetry. by apply (Hwf k e).
Qed.

(** A record of the output, in the mapping *)
Lemma record_of_output n T H es out e :
  ingest n T H = Ok es → parseThingSpeakMerge n T H = Ok out → e ∈ out →
  ∃ e0, e = fill n e0 ∧ dict_get es (key_of e) = Ok e0.
Proof.
  intros Hes Hout He. rewrite (merge_eq _ _ _ _ Hes) in Hout.
  injection Hout as <-. rewrite sort_by_timestamp_perm in He.
  destruct (ingest_keys n T H) as (es0 & Hes0 & Hwf & Hkeys & _).
  rewrite Hes in Hes0. injection Hes0 as <-.
  unfold fill_all, dict_values in He.
  apply list_elem_of_fmap in He as (e0 & -> & He0).
  apply list_elem_of_fmap in He0 as ([k e1] & -> & Hin). simpl.
  exists e1. split; [done|]. unfold key_of.
  destruct (fill_spec n e1) as [-> _].
  destruct (Hwf _ _ Hin) as [<- _].
  apply dict_get_NoDup; [|done]. rewrite Hkeys. apply first_seen_NoDup.
Qed.

(** ** What the sensor loops keep *)

Lemma temp_record_keeps n :
  body_keeps (λ e e', timestamp e' = timestamp e ∧
                ∀ s v, e_ok e !! s = Some v → e_ok e' !! s = Some v)
    (temp_record n).
Proof.
  intros f e. destruct (csv_detect (py_get f "field2")) eqn:Hcsv.
  - destruct (temp_record_csv n f e Hcsv)
      as (tP & rP & e' & _ & _ & He' & Hts & Hframe & Hturn).
    exists e'. do 2 (split; [done|]). intros s v Hv.
    destruct (decide (1 ≤ s ≤ n)%nat) as [Hs|Hs].
    + destruct (Hturn s Hs) as (tv & hv & _ & _ & Hslot).
      unfold slot in Hslot. simpl in Hslot. injection Hslot as _ _ ->.
      by rewrite Hv.
    + specialize (Hframe s Hs). unfold slot in Hframe.
      injection Hframe as _ _ Hok. by rewrite Hok.
  - destruct (temp_record_legacy n f e Hcsv)
      as (e' & He' & Hts & Hframe & Hturn).
    exists e'. do 2 (split; [done|]). intros s v Hv.
    destruct (decide (1 ≤ s ≤ Nat.min n 8)%nat) as [Hs|Hs].
    + destruct (Hturn s Hs) as (val & _ & Hslot).
      unfold slot in Hslot. simpl in Hslot. injection Hslot as _ _ ->.
      by rewrite Hv.
    + specialize (Hframe s Hs). unfold slot in Hframe.
      injection Hframe as _ _ Hok. by rewrite Hok.
Qed.

Lemma hum_record_keeps n :
  body_keeps (λ e e', timestamp e' = timestamp e ∧
                ∀ s, e_t e' !! s = e_t e !! s ∧
                     flag_step (e_ok e !! s) (e_ok e' !! s))
    (hum_record n).
Proof.
  intros f e.
  destruct (hum_record_spec n f e) as (e' & He' & Hts & Hframe & Hturn).
  exists e'. do 2 (split; [done|]). intros s.
  destruct (decide (1 ≤ s ≤ Nat.min n 8)%nat) as [Hs|Hs].
  - destruct (Hturn s Hs) as (val & _ & Hslot).
    unfold slot in Hslot. simpl in Hslot. injection Hslot as -> _ ->.
    split; [done|]. unfold flag_step.
    destruct (e_ok e !! s); [|done]. destruct (present_nonzero val); auto.
  - specialize (Hframe s Hs). unfold slot in Hframe.
    injection Hframe as Ht _ Hok. rewrite Ht, Hok.
    split; [done|]. unfold flag_step. destruct (e_ok e !! s); auto.
Qed.

Lemma body_keeps_impl (R R' : entry → entry → Prop) body :
  (∀ e e', R e e' → R' e e') → body_keeps R body → body_keeps R' body.
Proof.
  intros Himpl Hbody f e. destruct (Hbody f e) as (e' & He' & HR). eauto.
Qed.

(** ** Stamps *)

Lemma first_stamp_app k l1 l2 :
  first_stamp k (l1 ++ l2) =
  match first_stamp k l1 with
  | Some ts => Some ts
  | None => first_stamp k l2
  end.
Proof.
  induction l1 as [|f l1 IH]; simpl; [done|].
  destruct (parse_created_at f) as [ts|]; [|done].
  by destruct (Z.eqb (round_min ts) k).
Qed.

Lemma stamps_of_step body seen es f :
  body_keeps (λ e e', timestamp e' = timestamp e) body →
  stamps_of seen es →
  ∃ es', ingest_with body es f = Ok es' ∧ stamps_of (seen ++ [f]) es'.
Proof.
  intros Hbody Hinv. destruct (parse_created_at f) as [ts|x] eqn:Hts.
  - rewrite (ingest_with_stamped _ _ _ _ Hts).
    destruct (Hbody f (record_before es ts)) as (e' & -> & He'). simpl.
    eexists. split; [done|]. intros k. rewrite first_stamp_app. simpl.
    rewrite Hts. destruct (decide (round_min ts = k)) as [<-|Hne].
    + rewrite dict_get_set_eq, Z.eqb_refl, He'. unfold record_before.
      specialize (Hinv (round_min ts)).
      destruct (dict_get es (round_min ts)); by rewrite Hinv.
    + rewrite dict_get_set_ne by done. apply Z.eqb_neq in Hne as ->.
      specialize (Hinv k). destruct (dict_get es k); by rewrite Hinv.
  - unfold ingest_with. rewrite Hts. exists es. split; [done|].
    intros k. rewrite first_stamp_app. simpl. rewrite Hts.
    specialize (Hinv k). destruct (dict_get es k); by rewrite Hinv.
Qed.

Lemma stamps_of_feed body feed seen es :
  body_keeps (λ e e', timestamp e' = timestamp e) body →
  stamps_of seen es →
  ∃ es', for_each feed (ingest_with body) es = Ok es' ∧
    stamps_of (seen ++ feed) es'.
Proof.
  intros Hbody. revert seen es.
  induction feed as [|f feed IH]; intros seen es Hinv.
  - exists es. by rewrite app_nil_r.
  - destruct (stamps_of_step body seen es f Hbody Hinv) as (es1 & Hes1 & Hinv1).
    destruct (IH _ _ Hinv1) as (es' & Hes' & Hinv').
    exists es'. simpl. rewrite Hes1. simpl. split; [done|].
    by rewrite <- app_assoc in Hinv'.
Qed.

Lemma for_each_total (R : entry → entry → Prop) body feed es :
  body_keeps R body → ∃ es', for_each feed (ingest_with body) es = Ok es'.
Proof.
  intros Hbody.
  destruct (for_each_records (λ _, True) body feed es) as (es' & Hes' & _);
    [done| |done|eauto].
  intros f e _ _. destruct (Hbody f e) as (e' & He' & _). eauto.
Qed.

Lemma temp_record_value n f e s :
  (1 ≤ s ≤ if csv_detect (py_get f "field2") then n else Nat.min n 8)%nat →
  ∃ e' v, temp_record n f e = Ok e' ∧ temp_value f s = Ok v ∧
    e_t e' !! s = Some v.
Proof.
  unfold temp_value. destruct (csv_detect (py_get f "field2")) eqn:Hcsv;
    intros Hs.
  - destruct (temp_record_csv n f e Hcsv)
      as (tP & rP & e' & HtP & _ & He' & _ & _ & Hturn).
    destruct (Hturn s Hs) as (tv & hv & Htv & _ & Hslot).
    unfold slot in Hslot. simpl in Hslot. injection Hslot as Ht _ _.
    exists e', tv. rewrite HtP. done.
  - destruct (temp_record_legacy n f e Hcsv) as (e' & He' & _ & _ & Hturn).
    destruct (Hturn s Hs) as (val & Hval & Hslot).
    unfold slot in Hslot. simpl in Hslot. injection Hslot as Ht _ _.
    by exists e', val.
Qed.

Lemma temp_record_binary n f e :
  (∀ s, e_ok e !! s = None ∨ e_ok e !! s = Some 0 ∨ e_ok e !! s = Some 1) →
  ∃ e', temp_record n f e = Ok e' ∧
    ∀ s, e_ok e' !! s = None ∨ e_ok e' !! s = Some 0 ∨ e_ok e' !! s = Some 1.
Proof.
  intros HP. destruct (csv_detect (py_get f "field2")) eqn:Hcsv.
  - destruct (temp_record_csv n f e Hcsv)
      as (tP & rP & e' & _ & _ & He' & _ & Hframe & Hturn).
    exists e'. split; [done|]. intros s.
    destruct (decide (1 ≤ s ≤ n)%nat) as [Hs|Hs].
    + destruct (Hturn s Hs) as (tv & hv & _ & _ & Hslot).
      unfold slot in Hslot. simpl in Hslot. injection Hslot as _ _ ->.
      destruct (HP s) as [->|[->| ->]]; auto.
      destruct (not_none tv || not_none hv); auto.
    + specialize (Hframe s Hs). unfold slot in Hframe.
      injection Hframe as _ _ ->. apply HP.
  - destruct (temp_record_legacy n f e Hcsv) as (e' & He' & _ & Hframe & Hturn).
    exists e'. split; [done|]. intros s.
    destruct (decide (1 ≤ s ≤ Nat.min n 8)%nat) as [Hs|Hs].
    + destruct (Hturn s Hs) as (val & _ & Hslot).
      unfold slot in Hslot. simpl in Hslot. injection Hslot as _ _ ->.
      destruct (HP s) as [->|[->| ->]]; auto.
      destruct (present_nonzero val); auto.
    + specialize (Hframe s Hs). unfold slot in Hframe.
      injection Hframe as _ _ ->. apply HP.
Qed.

Lemma hum_record_binary n f e :
  (∀ s, e_ok e !! s = None ∨ e_ok e !! s = Some 0 ∨ e_ok e !! s = Some 1) →
  ∃ e', hum_record n f e = Ok e' ∧
    ∀ s, e_ok e' !! s = None ∨ e_ok e' !! s = Some 0 ∨ e_ok e' !! s = Some 1.
Proof.
  intros HP. destruct (hum_record_keeps n f e) as (e' & He' & _ & Hstep).
  exists e'. split; [done|]. intros s. destruct (Hstep s) as [_ Hflag].
  unfold flag_step in Hflag.
  destruct (HP s) as [Hs|[Hs|Hs]]; rewrite Hs in Hflag.
  - destruct (hum_record_spec n f e) as (e2 & He2 & _ & Hframe & Hturn).
    rewrite He' in He2. injection He2 as <-.
    destruct (decide (1 ≤ s ≤ Nat.min n 8)%nat) as [Hr|Hr].
    + destruct (Hturn s Hr) as (val & _ & Hslot).
      unfold slot in Hslot. simpl in Hslot. injection Hslot as _ _ ->.
      destruct (present_nonzero val); auto.
    + specialize (Hframe s Hr). unfold slot in Hframe.
      injection Hframe as _ _ ->. auto.
  - destruct Hflag; auto.
  - destruct Hflag; auto.
Qed.

(** * Beyond the claims: theorems on the merge *)

(** X1. A reading of either feed changes the record of its own key
    only: the record stored under any other key is what it was. *)
Theorem other_keys_untouched n es f ts k :
  parse_created_at f = Ok ts → round_min ts ≠ k →
  ∃ es1 es2,
    ingest_temp n es f = Ok es1 ∧ dict_get es1 k = dict_get es k ∧
    ingest_hum n es f = Ok es2 ∧ dict_get es2 k = dict_get es k.
Proof.
  intros Hts Hk.
  assert (∀ ts', parse_created_at f = Ok ts' → round_min ts' ≠ k) as Hoff.
  { intros ts' Hts'. rewrite Hts in Hts'. by injection Hts' as <-. }
  destruct (ingest_with_frame _ _ es f k (temp_record_keeps n) Hoff)
    as (es1 & Hes1 & Hk1).
  destruct (ingest_with_frame _ _ es f k (hum_record_keeps n) Hoff)
    as (es2 & Hes2 & Hk2).
  by exists es1, es2.
Qed.

(** X2. A flag that is set stays set through any further readings: the
    whole temperature feed leaves it at its value, the whole humidity
    feed leaves it there or raises it to [1], and the fill keeps it.
    So a [1] is never lowered and a set flag is never unset. *)
Theorem set_flags_only_rise n T H es k e s v :
  dict_get es k = Ok e → e_ok e !! s = Some v →
  ∃ es1 e1 es2 e2,
    for_each T (ingest_temp n) es = Ok es1 ∧ dict_get es1 k = Ok e1 ∧
    e_ok e1 !! s = Some v ∧
    for_each H (ingest_hum n) es1 = Ok es2 ∧ dict_get es2 k = Ok e2 ∧
    (e_ok e2 !! s = Some v ∨ e_ok e2 !! s = Some 1) ∧
    e_ok (fill n e2) !! s = e_ok e2 !! s.
Proof.
  intros Hget Hv.
  destruct (for_each_keeps
              (λ e e', ∀ s v, e_ok e !! s = Some v → e_ok e' !! s = Some v)
              (temp_record n) T es k e) as (es1 & e1 & Hes1 & Hget1 & HR1);
    [done|by eauto| |done|].
  { eapply body_keeps_impl; [|apply temp_record_keeps]. by intros ?? [_ ?]. }
  destruct (for_each_keeps
              (λ e e', ∀ s, flag_step (e_ok e !! s) (e_ok e' !! s))
              (hum_record n) H es1 k e1) as (es2 & e2 & Hes2 & Hget2 & HR2);
    [| | |done|].
  { intros e0 s0. unfold flag_step. destruct (e_ok e0 !! s0); auto. }
  { intros ea eb ec Hab Hbc s0. specialize (Hab s0). specialize (Hbc s0).
    unfold flag_step in *. destruct (e_ok ea !! s0); [|done].
    destruct Hab as [Hab|Hab]; rewrite Hab in Hbc; destruct Hbc; auto. }
  { eapply body_keeps_impl; [|apply hum_record_keeps].
    intros ?? [_ Hs] s0. apply Hs. }
  exists es1, e1, es2, e2. rewrite ingest_temp_with, ingest_hum_with.
  do 2 (split; [done|]). split; [by apply HR1|]. do 2 (split; [done|]).
  specialize (HR2 s). rewrite (HR1 s v Hv) in HR2. split; [done|].
  destruct (decide (1 ≤ s ≤ n)%nat) as [Hs|Hs].
  - destruct (fill_lookup n e2 s Hs) as (_ & _ & ->).
    by destruct HR2 as [-> | ->].
  - destruct (fill_spec n e2) as (_ & Hframe & _).
    specialize (Hframe s Hs). unfold slot in Hframe.
    by injection Hframe as _ _ ->.
Qed.

(** X3. In every record of the output, the flag of every sensor of
    [1..SENSOR_COUNT] is [0] or [1]. *)
Theorem output_flags_binary n T H :
  ∃ out, parseThingSpeakMerge n T H = Ok out ∧
    ∀ e s, e ∈ out → (1 ≤ s ≤ n)%nat →
      e_ok e !! s = Some 0 ∨ e_ok e !! s = Some 1.
Proof.
  pose (P := λ e : entry, ∀ s,
          e_ok e !! s = None ∨ e_ok e !! s = Some 0 ∨ e_ok e !! s = Some 1).
  destruct (for_each_records P (temp_record n) T []) as (es1 & Hes1 & HP1).
  { intros ts s. left. apply lookup_empty. }
  { intros f e _. apply temp_record_binary. }
  { intros k e Hin. by apply elem_of_nil in Hin. }
  destruct (for_each_records P (hum_record n) H es1) as (es & Hes & HP).
  { intros ts s. left. apply lookup_empty. }
  { intros f e _. apply hum_record_binary. }
  { done. }
  assert (ingest n T H = Ok es) as Hing.
  { rewrite ingest_split, Hes1. done. }
  exists (sort_by_timestamp (fill_all n es)). split; [by apply merge_eq|].
  intros e s He Hs.
  destruct (record_of_output n T H es _ e Hing (merge_eq _ _ _ _ Hing) He)
    as (e0 & -> & Hget).
  apply dict_get_elem in Hget.
  destruct (fill_lookup n e0 s Hs) as (_ & _ & ->).
  destruct (HP _ _ Hget s) as [->|[->| ->]]; auto.
Qed.

(** X4. The timestamp of every record of the output is the parsed
    timestamp of the first reading that falls under its key, along the
    temperature feed and then the humidity feed: later readings of the
    same minute never move it. *)
Theorem record_timestamp_is_first n T H :
  ∃ out, parseThingSpeakMerge n T H = Ok out ∧
    ∀ e, e ∈ out → first_stamp (key_of e) (T ++ H) = Some (timestamp e).
Proof.
  assert (stamps_of [] []) as Hinv0 by (by intros k).
  destruct (stamps_of_feed (temp_record n) T [] [])
    as (es1 & Hes1 & Hinv1); [|done|].
  { eapply body_keeps_impl; [|apply temp_record_keeps]. by intros ?? [? _]. }
  destruct (stamps_of_feed (hum_record n) H ([] ++ T) es1)
    as (es & Hes & Hinv); [|done|].
  { eapply body_keeps_impl; [|apply hum_record_keeps]. by intros ?? [? _]. }
  assert (ingest n T H = Ok es) as Hing.
  { rewrite ingest_split, Hes1. done. }
  exists (sort_by_timestamp (fill_all n es)). split; [by apply merge_eq|].
  intros e He.
  destruct (record_of_output n T H es _ e Hing (merge_eq _ _ _ _ Hing) He)
    as (e0 & -> & Hget).
  specialize (Hinv (key_of (fill n e0))). rewrite Hget in Hinv.
  destruct (fill_spec n e0) as [-> _]. done.
Qed.

(** X5. The output has exactly one record per key: the keys of its
    records are distinct, and they are the keys of the readings of
    either feed whose timestamp parses. *)
Theorem one_record_per_key n T H :
  ∃ out, parseThingSpeakMerge n T H = Ok out ∧
    NoDup (key_of <$> out) ∧
    (∀ k, k ∈ key_of <$> out ↔ k ∈ (feed_keys T ++ feed_keys H)%list) ∧
    length out = length (first_seen (feed_keys T ++ feed_keys H)).
Proof.
  destruct (ingest_keys n T H) as (es & Hes & Hwf & Hkeys & _).
  exists (sort_by_timestamp (fill_all n es)). split; [by apply merge_eq|].
  assert (Permutation (key_of <$> sort_by_timestamp (fill_all n es))
            (first_seen (feed_keys T ++ feed_keys H))) as Hperm.
  { rewrite sort_by_timestamp_perm. rewrite <- Hkeys.
    rewrite <- (fill_all_keys n es Hwf). done. }
  split; [|split].
  - rewrite Hperm. apply first_seen_NoDup.
  - intros k. rewrite Hperm. apply first_seen_elem.
  - rewrite <- (length_fmap key_of). by rewrite Hperm.
Qed.

(** X6. Last write wins for temperatures: after the last temperature
    reading [f] of a key, the output record of that key has, for every
    sensor the loop of [f] covers, the temperature [f] holds for it,
    whatever earlier readings set and whatever the humidity feed is. *)
Theorem last_temperature_wins n T1 f T2 H ts s :
  parse_created_at f = Ok ts →
  off_key (round_min ts) T2 →
  (1 ≤ s ≤ if csv_detect (py_get f "field2") then n else Nat.min n 8)%nat →
  ∃ out e v, parseThingSpeakMerge n (T1 ++ f :: T2) H = Ok out ∧
    e ∈ out ∧ key_of e = round_min ts ∧
    temp_value f s = Ok v ∧ e_t e !! s = Some v.
Proof.
  intros Hts Hoff Hs.
  destruct (for_each_total _ _ T1 [] (temp_record_keeps n)) as (esA & HesA).
  destruct (temp_record_value n f (record_before esA ts) s Hs)
    as (ef & v & Hef & Hv & Ht).
  pose (esB := dict_set esA (round_min ts) ef).
  assert (ingest_with (temp_record n) esA f = Ok esB) as HesB.
  { rewrite (ingest_with_stamped _ _ _ _ Hts), Hef. done. }
  destruct (for_each_frame _ _ T2 esB (round_min ts)
              (temp_record_keeps n) Hoff) as (esC & HesC & HgetC).
  unfold esB in HgetC. rewrite dict_get_set_eq in HgetC.
  destruct (for_each_keeps (λ e e', ∀ s, e_t e' !! s = e_t e !! s)
              (hum_record n) H esC (round_min ts) ef)
    as (es & e2 & Hes & Hget & HR); [done|congruence| |done|].
  { eapply body_keeps_impl; [|apply hum_record_keeps].
    intros ?? [_ Hk] s0. apply Hk. }
  assert (ingest n (T1 ++ f :: T2) H = Ok es) as Hing.
  { rewrite ingest_split, for_each_app, HesA. simpl. rewrite HesB. simpl.
    rewrite HesC. done. }
  destruct (output_of_record _ _ _ _ _ _ Hing Hget) as (out & Hout & Hin & Hk).
  exists out, (fill n e2), v. do 4 (split; [done|]).
  destruct (fill_lookup n e2 s) as (-> & _).
  { destruct (csv_detect (py_get f "field2")); lia. }
  by rewrite HR, Ht.
Qed.

(** X7. Last write wins for humidities: after the last humidity
    reading [f] of a key, the output record of that key has, for every
    sensor of [1..min(SENSOR_COUNT,8)], the parsed [field{s}] of [f] as
    [rh], whatever the temperature feed put there. *)
Theorem last_humidity_wins n T H1 f H2 ts s :
  parse_created_at f = Ok ts →
  off_key (round_min ts) H2 →
  (1 ≤ s ≤ Nat.min n 8)%nat →
  ∃ out e v, parseThingSpeakMerge n T (H1 ++ f :: H2) = Ok out ∧
    e ∈ out ∧ key_of e = round_min ts ∧
    num_parse (py_get f (field_key s)) = Ok v ∧ e_rh e !! s = Some v.
Proof.
  intros Hts Hoff Hs.
  destruct (for_each_total _ _ T [] (temp_record_keeps n)) as (es1 & Hes1).
  destruct (for_each_total _ _ H1 es1 (hum_record_keeps n)) as (esA & HesA).
  destruct (hum_record_spec n f (record_before esA ts))
    as (ef & Hef & _ & _ & Hturn).
  destruct (Hturn s Hs) as (v & Hv & Hslot).
  unfold slot in Hslot. simpl in Hslot. injection Hslot as _ Hrh _.
  pose (esB := dict_set esA (round_min ts) ef).
  assert (ingest_with (hum_record n) esA f = Ok esB) as HesB.
  { rewrite (ingest_with_stamped _ _ _ _ Hts), Hef. done. }
  destruct (for_each_frame _ _ H2 esB (round_min ts)
              (hum_record_keeps n) Hoff) as (es & Hes & Hget).
  unfold esB in Hget. rewrite dict_get_set_eq in Hget.
  assert (ingest n T (H1 ++ f :: H2) = Ok es) as Hing.
  { rewrite ingest_split, Hes1. simpl. rewrite for_each_app, HesA. simpl.
    rewrite HesB. done. }
  destruct (output_of_record _ _ _ _ _ _ Hing Hget) as (out & Hout & Hin & Hk).
  exists out, (fill n ef), v. do 4 (split; [done|]).
  destruct (fill_lookup n ef s) as (_ & -> & _); [lia|].
  by rewrite Hrh.
Qed.

(** X8. The cap at eight sensors: when no temperature reading is
    packed, no sensor beyond the eighth is ever populated, however
    large [SENSOR_COUNT] is; in the output it has [None], [None] and
    [0]. *)
Theorem legacy_feeds_cap_at_eight n T H :
  (∀ f, f ∈ T → csv_detect (py_get f "field2") = false) →
  ∃ out, parseThingSpeakMerge n T H = Ok out ∧
    ∀ e s, e ∈ out → (8 < s ≤ n)%nat →
      e_t e !! s = Some None ∧ e_rh e !! s = Some None ∧
      e_ok e !! s = Some 0.
Proof.
  intros Hlegacy.
  pose (P := λ e : entry, ∀ s, (8 < s)%nat → slot e s = (None, None, None)).
  destruct (for_each_records P (temp_record n) T []) as (es1 & Hes1 & HP1).
  { by intros ts s _. }
  { intros f e Hf HP.
    destruct (temp_record_legacy n f e (Hlegacy f Hf))
      as (e' & He' & _ & Hframe & _).
    exists e'. split; [done|]. intros s Hs. rewrite Hframe by lia.
    by apply HP. }
  { intros k e Hin. by apply elem_of_nil in Hin. }
  destruct (for_each_records P (hum_record n) H es1) as (es & Hes & HP).
  { by intros ts s _. }
  { intros f e _ HP.
    destruct (hum_record_spec n f e) as (e' & He' & _ & Hframe & _).
    exists e'. split; [done|]. intros s Hs. rewrite Hframe by lia.
    by apply HP. }
  { done. }
  assert (ingest n T H = Ok es) as Hing.
  { rewrite ingest_split, Hes1. done. }
  exists (sort_by_timestamp (fill_all n es)). split; [by apply merge_eq|].
  intros e s He Hs.
  destruct (record_of_output n T H es _ e Hing (merge_eq _ _ _ _ Hing) He)
    as (e0 & -> & Hget).
  apply dict_get_elem in Hget.
  destruct (fill_lookup n e0 s) as (-> & -> & ->); [lia|].
  assert (slot e0 s = (None, None, None)) as Hslot
    by (apply (HP _ _ Hget); lia).
  unfold slot in Hslot. by injection Hslot as -> -> ->.
Qed.

(** Which keys a record of the output has *)
Lemma merged_records_complete_lookup n T H :
  ∃ out, parseThingSpeakMerge n T H = Ok out ∧
    ∀ e s, e ∈ out →
      ((1 ≤ s ≤ n)%nat → is_Some (e_t e !! s)) ∧
      (¬ (1 ≤ s ≤ n)%nat → e_t e !! s = None).
Proof.
  destruct (ingest_keys n T H) as (es & Hes & Hwf & _).
  exists (sort_by_timestamp (fill_all n es)). split; [by apply merge_eq|].
  intros e s He.
  destruct (record_of_output n T H es _ e Hes (merge_eq _ _ _ _ Hes) He)
    as (e0 & -> & Hget).
  apply dict_get_elem in Hget. destruct (Hwf _ _ Hget) as [_ Hout].
  split; intros Hs.
  - destruct (fill_lookup n e0 s Hs) as (-> & _). eauto.
  - destruct (fill_spec n e0) as (_ & Hframe & _).
    specialize (Hframe s Hs). rewrite (Hout s Hs) in Hframe.
    unfold slot in Hframe. by injection Hframe as -> _ _.
Qed.

(** The keys of the output are the keys of the readings. *)
Lemma one_record_keys n T H :
  ∃ out, parseThingSpeakMerge n T H = Ok out ∧
    ∀ k, k ∈ key_of <$> out ↔ k ∈ (feed_keys T ++ feed_keys H)%list.
Proof.
  destruct (ingest_keys n T H) as (es & Hes & Hwf & Hkeys & _).
  exists (sort_by_timestamp (fill_all n es)). split; [by apply merge_eq|].
  intros k. rewrite sort_by_timestamp_perm.
  unfold key_of. rewrite (fill_all_keys n es Hwf), Hkeys.
  apply first_seen_elem.
Qed.

End MergeFacts.

(** * Beyond the claims: the diagnostics *)

Section DiagnosticsFacts.
Context {B : PyBuiltins} {D : PyTimedelta B}.

Implicit Types (e : entry) (s : nat) (l : list entry).

(** ** The week window *)

Lemma filter_sorted_tail (c : Z) l :
  StronglySorted ts_le l →
  ∃ older,
    l = (older ++ List.filter (λ e, c <=? dt_instant (timestamp e)) l)%list ∧
    Forall (λ e, dt_instant (timestamp e) < c) older.
Proof.
  induction l as [|x l IH]; intros Hl.
  - by exists [].
  - apply StronglySorted_inv in Hl as [Hl Hx]. simpl.
    destruct (c <=? dt_instant (timestamp x)) eqn:Hc.
    + exists []. split; [|constructor]. simpl. f_equal.
      symmetry. apply forallb_filter_id. apply forallb_forall.
      intros y Hy. rewrite Forall_forall in Hx. apply list_elem_of_In in Hy.
      specialize (Hx y Hy). unfold ts_le in Hx. lia.
    + destruct (IH Hl) as (older & Heq & Hold).
      exists (x :: older). split; [simpl; by f_equal|].
      constructor; [lia|done].
Qed.

Lemma sorted_last_max l x :
  StronglySorted ts_le l → last l = Some x → Forall (λ e, ts_le e x) l.
Proof.
  induction l as [|y l IH]; intros Hl Hlast; [constructor|].
  apply StronglySorted_inv in Hl as [Hl Hy].
  destruct l as [|z l].
  - injection Hlast as ->. repeat constructor. unfold ts_le. lia.
  - assert (last (z :: l) = Some x) as Hlast' by done.
    constructor; [|by apply IH].
    rewrite Forall_forall in Hy. apply Hy. by apply last_Some_elem_of.
Qed.

(** X9. Lines 101-106 on the output of the merge.  Line 101 raises
    [IndexError] exactly when the output is empty.  Otherwise, unless
    the subtraction overflows, [filtered] is a tail of the output that
    ends with its latest record (so [filtered[0]] and [filtered[-1]]
    exist): every record left out is more than seven days older than
    the latest, and every record kept is at most seven days older. *)
Theorem week_window_is_recent_tail n T H :
  ∃ out, parseThingSpeakMerge n T H = Ok out ∧
    match week_window out with
    | WindowIndexError => out = []
    | WindowOverflowError => out ≠ []
    | Window filtered =>
        ∃ older latest,
          out = (older ++ filtered)%list ∧
          last out = Some latest ∧ last filtered = Some latest ∧
          (∀ e, e ∈ older →
             dt_instant (timestamp e)
             < dt_instant (timestamp latest) - 604800000000) ∧
          (∀ e, e ∈ filtered →
             dt_instant (timestamp latest) - 604800000000
             ≤ dt_instant (timestamp e) ≤ dt_instant (timestamp latest))
    end.
Proof.
  destruct (ingest_keys n T H) as (es & Hes & _).
  exists (sort_by_timestamp (fill_all n es)). split; [by apply merge_eq|].
  generalize (sort_by_timestamp_sorted (fill_all n es)).
  generalize (sort_by_timestamp (fill_all n es)). intros out Hsorted.
  unfold week_window, py_last.
  destruct (last out) as [latest|] eqn:Hlast; [|by apply last_None].
  destruct (dt_minus_days (timestamp latest) 7) as [week_start|] eqn:Hweek.
  - apply dt_minus_days_instant in Hweek.
    destruct (filter_sorted_tail (dt_instant week_start) out Hsorted)
      as (older & Heq & Hold).
    pose proof (sorted_last_max out latest Hsorted Hlast) as Hmax.
    set (filtered := List.filter _ out) in *.
    assert (latest ∈ filtered) as Hin.
    { unfold filtered. apply list_elem_of_In, filter_In. split.
      - apply list_elem_of_In. by apply last_Some_elem_of.
      - lia. }
    exists older, latest. split; [done|]. split; [done|]. split.
    + rewrite Heq in Hlast. destruct filtered as [|y filtered'].
      * by apply elem_of_nil in Hin.
      * by rewrite last_app_cons in Hlast.
    + split.
      * intros e He. rewrite Forall_forall in Hold. specialize (Hold e He). lia.
      * intros e He. split.
        -- unfold filtered in He. apply list_elem_of_In, filter_In in He. lia.
        -- rewrite Forall_forall in Hmax. apply (Hmax e).
           rewrite Heq. apply elem_of_app. by right.
  - intros ->. done.
Qed.

(** ** The chart points *)

Lemma dataset_turn_present s acc e (v : option pyfloat) :
  e_t e !! s = Some v →
  dataset_turn s acc e =
  Ok (if has_t s e then acc ++ [(timestamp e, v)] else acc)%list.
Proof.
  intros Hv. unfold dataset_turn, get_t, has_t. rewrite Hv. simpl.
  by destruct v.
Qed.

Lemma make_dataset_present s l acc :
  (∀ e, e ∈ l → is_Some (e_t e !! s)) →
  for_each l (dataset_turn s) acc =
  Ok (acc ++ ((λ e, (timestamp e, default None (e_t e !! s)))
                <$> List.filter (has_t s) l))%list.
Proof.
  revert acc. induction l as [|e l IH]; intros acc Hl; simpl.
  - by rewrite app_nil_r.
  - destruct (Hl e) as [v Hv]; [apply elem_of_cons; by left|].
    rewrite (dataset_turn_present _ _ _ _ Hv). simpl.
    rewrite IH by (intros e' He'; apply Hl, elem_of_cons; by right).
    destruct (has_t s e); [|done]. rewrite fmap_cons, Hv. simpl.
    by rewrite <- app_assoc.
Qed.

(** X10. Line 111 on records of the output.  For a sensor of
    [1..SENSOR_COUNT] no [e[key]] raises: the chart points are the
    records that have a temperature, in order, each with its timestamp
    and that temperature.  For any other sensor number the first
    record already raises [KeyError]. *)
Theorem dataset_reads_every_key n T H :
  ∃ out, parseThingSpeakMerge n T H = Ok out ∧
    ∀ filtered s, filtered ⊆ out →
      ((1 ≤ s ≤ n)%nat →
         make_dataset s filtered =
         Ok ((λ e, (timestamp e, default None (e_t e !! s)))
               <$> List.filter (has_t s) filtered) ∧
         Forall (λ e, is_Some (default None (e_t e !! s)))
           (List.filter (has_t s) filtered)) ∧
      (¬ (1 ≤ s ≤ n)%nat → filtered ≠ [] →
         make_dataset s filtered = Raise KeyError).
Proof.
  destruct (merged_records_complete_lookup n T H) as (out & Hout & Hkeys).
  exists out. split; [done|]. intros filtered s Hsub. split.
  - intros Hs. split.
    + unfold make_dataset. rewrite make_dataset_present; [done|].
      intros e He. destruct (Hkeys e s (Hsub e He)) as [Hin _].
      by apply Hin.
    + apply Forall_forall. intros e He.
      apply list_elem_of_In, filter_In in He as [_ He].
      unfold has_t in He. by destruct (e_t e !! s) as [[x|]|].
  - intros Hs Hne. destruct filtered as [|e filtered]; [done|].
    destruct (Hkeys e s) as [_ Hout']; [apply Hsub, elem_of_cons; by left|].
    unfold make_dataset. simpl. unfold dataset_turn, get_t.
    by rewrite (Hout' Hs).
Qed.

(** ** The largest gap *)

Lemma gap_turn_inv (pts : list (datetime * option pyfloat)) k st :
  (S k < length pts)%nat → gap_inv pts k st →
  ∃ st', gap_turn pts st (S k) = Ok st' ∧ gap_inv pts (S k) st'.
Proof.
  intros Hk Hinv. unfold gap_turn, py_index.
  destruct (lookup_lt_is_Some_2 pts (S k) Hk) as [cur Hcur].
  destruct (lookup_lt_is_Some_2 pts k) as [prev Hprev]; [lia|].
  replace (S k - 1)%nat with k by lia. rewrite Hcur, Hprev. simpl.
  destruct st as [[m a] b]. simpl. destruct Hinv as (Hm & Hbound & Hfirst).
  assert (gap_at pts (S k) = Some (dt_instant cur.1 - dt_instant prev.1))
    as Hgap.
  { unfold gap_at. replace (S k - 1)%nat with k by lia.
    by rewrite Hcur, Hprev. }
  destruct (m <? dt_instant cur.1 - dt_instant prev.1) eqn:Hlt;
    eexists; (split; [done|]); simpl.
  - split; [lia|]. split.
    + intros i g Hi Hg. destruct (decide (i = S k)) as [->|Hne].
      * rewrite Hgap in Hg. injection Hg as <-. lia.
      * assert (g ≤ m) by (apply (Hbound i g); [lia|done]). lia.
    + right. exists (S k), prev, cur.
      replace (S k - 1)%nat with k by lia.
      do 6 (split; [done || lia|]). split; [lia|].
      intros j g Hj Hg.
      assert (g ≤ m) by (apply (Hbound j g); [lia|done]). lia.
  - split; [done|]. split.
    + intros i g Hi Hg. destruct (decide (i = S k)) as [->|Hne].
      * rewrite Hgap in Hg. injection Hg as <-. lia.
      * apply (Hbound i g); [lia|done].
    + destruct Hfirst as [?|(i & p & c & Hi & ?)]; [by left|].
      right. exists i, p, c. split; [lia|done].
Qed.

Lemma gap_loop_inv (pts : list (datetime * option pyfloat)) k :
  (k < length pts)%nat →
  ∃ st, for_each (seq 1 k) (gap_turn pts) (0, None, None) = Ok st ∧
    gap_inv pts k st.
Proof.
  induction k as [|k IH]; intros Hk.
  - eexists. split; [done|]. simpl. split; [done|]. split; [|by left].
    intros i g Hi. lia.
  - destruct IH as (st & Hst & Hinv); [lia|].
    destruct (gap_turn_inv pts k st Hk Hinv) as (st' & Hst' & Hinv').
    exists st'. split; [|done].
    rewrite seq_S, for_each_app, Hst. simpl. by rewrite Hst'.
Qed.

(** X11. Lines 116-125 never raise.  With fewer than two chart points
    the loop is skipped.  Otherwise [max_gap] is not negative and bounds
    every gap between neighbouring points; it is zero with
    [max_gap_start] and [max_gap_end] still [None] when no gap is
    positive, and else it is the first gap that reaches the maximum,
    with [max_gap_start] and [max_gap_end] the timestamps around it. *)
Theorem largest_gap_is_first_maximum
    (data_points : list (datetime * option pyfloat)) :
  ∃ r, largest_gap data_points = Ok r ∧
    match r with
    | None => (length data_points < 2)%nat
    | Some (max_gap, max_gap_start, max_gap_end) =>
        (2 ≤ length data_points)%nat ∧ 0 ≤ max_gap ∧
        (∀ i g, (1 ≤ i)%nat → gap_at data_points i = Some g → g ≤ max_gap) ∧
        ((max_gap = 0 ∧ max_gap_start = None ∧ max_gap_end = None) ∨
         ∃ i prev cur, (1 ≤ i)%nat ∧
           data_points !! (i - 1)%nat = Some prev ∧
           data_points !! i = Some cur ∧
           max_gap_start = Some prev.1 ∧ max_gap_end = Some cur.1 ∧
           max_gap = dt_instant cur.1 - dt_instant prev.1 ∧ 0 < max_gap ∧
           ∀ j g, (1 ≤ j < i)%nat → gap_at data_points j = Some g →
             g < max_gap)
    end.
Proof.
  unfold largest_gap. destruct (2 <=? length data_points)%nat eqn:Hlen.
  - apply Nat.leb_le in Hlen.
    destruct (gap_loop_inv data_points (length data_points - 1))
      as ([[m a] b] & Hst & Hm & Hbound & Hfirst); [lia|].
    rewrite Hst. simpl. eexists. split; [done|]. simpl.
    do 2 (split; [done|]). split.
    + intros i g Hi Hg. apply (Hbound i g); [|done].
      unfold gap_at in Hg.
      destruct (data_points !! (i - 1)%nat); [|done].
      destruct (data_points !! i) eqn:Hi'; [|done].
      apply lookup_lt_Some in Hi'. lia.
    + destruct Hfirst as [?|(i & p & c & Hi & Hrest)]; [by left|].
      right. exists i, p, c. split; [lia|done].
  - apply Nat.leb_gt in Hlen. by exists None.
Qed.

End DiagnosticsFacts.

(** * Beyond the claims: the timestamps of the injector *)

Section InjectorFacts.
Context {B : PyBuiltins}.

Lemma prefix_split (p s : string) :
  String.prefix p s = true → ∃ r, s = p ++ r.
Proof.
  revert s. induction p as [|a p IH]; intros s Hp.
  - by exists s.
  - destruct s as [|b s]; simpl in Hp; [done|].
    destruct (ascii_dec a b) as [->|]; [|done].
    destruct (IH s Hp) as [r ->]. by exists r.
Qed.

Lemma str_replace_from_skip old new (q r : string) :
  str_replace_from old new (String.length q) (q ++ r) =
  str_replace_from old new 0 r.
Proof.
  induction q as [|a q IH]; simpl; [|done]. by destruct r.
Qed.

(** A match is replaced and passed over. *)
Lemma str_replace_from_match old new (r : string) :
  old ≠ "" →
  str_replace_from old new 0 (old ++ r) = new ++ str_replace_from old new 0 r.
Proof.
  destruct old as [|a old]; [done|]. intros _.
  assert (String.prefix (String a old) (String a old ++ r) = true) as Hp.
  { generalize (String a old). intros p. induction p as [|b p IH]; simpl.
    - by destruct r.
    - by destruct (ascii_dec b b). }
  change (String a old ++ r) with (String a (old ++ r)) in *.
  cbn [str_replace_from]. rewrite Hp. f_equal.
  cbn [String.length]. replace (S (String.length old) - 1)%nat
    with (String.length old) by lia.
  apply str_replace_from_skip.
Qed.

(** Anything else is kept. *)
Lemma str_replace_from_keep old new (c : ascii) (r : string) :
  String.prefix old (String c r) = false →
  str_replace_from old new 0 (String c r) =
  String c (str_replace_from old new 0 r).
Proof. intros Hp. cbn [str_replace_from]. by rewrite Hp. Qed.

(** Replacing one character is the [replace] of line 42 of the merge. *)
Lemma str_replace_all_char (c : ascii) (new s : string) :
  str_replace_all (String c "") new s = str_replace c new s.
Proof.
  unfold str_replace_all. induction s as [|a s IH]; [done|].
  cbn [str_replace_from str_replace String.prefix String.length].
  destruct (ascii_dec c a) as [->|Hne].
  - rewrite Ascii.eqb_refl. simpl. rewrite <- IH. by destruct s.
  - assert (Ascii.eqb a c = false) as -> by (apply Ascii.eqb_neq; congruence).
    by rewrite IH.
Qed.

Lemma str_replace_undoes (s : string) :
  str_replace "Z" "+00:00" (str_replace_from "+00:00" "Z" 0 s) =
  str_replace "Z" "+00:00" s.
Proof.
  remember (String.length s) as m eqn:Hm. revert s Hm.
  induction m as [m IH] using lt_wf_ind. intros s Hm.
  destruct s as [|c s]; [done|].
  destruct (String.prefix "+00:00" (String c s)) eqn:Hp.
  - destruct (prefix_split _ _ Hp) as [r Hr]. rewrite Hr.
    rewrite str_replace_from_match by done.
    change (str_replace "Z" "+00:00" ("Z" ++ ?x))
      with ("+00:00" ++ str_replace "Z" "+00:00" x).
    rewrite (IH (String.length r)); [done| |done].
    rewrite Hm, Hr. cbv [String.append String.length]. lia.
  - rewrite str_replace_from_keep by done.
    cbn [str_replace]. rewrite (IH (String.length s)); [done| |done].
    rewrite Hm. simpl. lia.
Qed.

Lemma str_replace_Z_free (s : string) :
  str_contains "Z" (str_replace "Z" "+00:00" s) = false.
Proof.
  induction s as [|c s IH]; [done|]. cbn [str_replace].
  destruct (Ascii.eqb c "Z") eqn:Hc; [done|].
  cbn [str_contains]. by rewrite Hc.
Qed.

Lemma str_replace_absent (c : ascii) (new s : string) :
  str_contains c s = false → str_replace c new s = s.
Proof.
  induction s as [|a s IH]; [done|]. cbn [str_contains str_replace].
  destruct (Ascii.eqb a c); [done|]. intros Hs. by rewrite IH.
Qed.

(** X12. Line 33 of the injector, which turns every [+00:00] into
    [Z] and then every [Z] into [+00:00], is the single replacement of
    [Z] that the merge does on line 42: the result has no [Z] left,
    the replacement of the merge leaves it as it is, and the first
    parse of the injector reads a [created_at] exactly as the merge
    reads it. *)
Theorem injector_normalizes_as_merge (ts_str : string) :
  normalize_created_at ts_str = str_replace "Z" "+00:00" ts_str ∧
  str_contains "Z" (normalize_created_at ts_str) = false ∧
  str_replace "Z" "+00:00" (normalize_created_at ts_str)
    = normalize_created_at ts_str ∧
  inject_first_parse ts_str
    = parse_created_at {[ "created_at" := JStr ts_str ]}.
Proof.
  assert (normalize_created_at ts_str = str_replace "Z" "+00:00" ts_str)
    as Hnorm.
  { unfold normalize_created_at. rewrite str_replace_all_char.
    apply str_replace_undoes. }
  split; [done|]. rewrite Hnorm. split; [apply str_replace_Z_free|].
  split; [apply str_replace_absent, str_replace_Z_free|].
  unfold inject_first_parse, parse_created_at, py_get_default.
  rewrite lookup_singleton_eq, Hnorm. done.
Qed.

End InjectorFacts.

(** * Beyond the claims: the freshness report *)

Section FreshnessFacts.
Context {B : PyBuiltins}.

(** X13. The age that lines 40-43 print.  The hours are in [0..23] and
    the minutes in [0..59] whatever the two timestamps are, and days,
    hours and minutes together are the age in whole minutes, rounded
    down.  The days are printed only when they are positive: for a
    reading in the future the hours and minutes of the negative age
    plus a number of whole days are printed alone. *)
Theorem age_is_whole_minutes (now latest_dt : datetime) :
  0 ≤ age_hours now latest_dt < 24 ∧
  0 ≤ age_minutes now latest_dt < 60 ∧
  age_days now latest_dt * 1440 + age_hours now latest_dt * 60
    + age_minutes now latest_dt
    = (dt_instant now - dt_instant latest_dt) / 60000000 ∧
  (age_days now latest_dt ≤ 0 →
   age_str now latest_dt =
   str_of_Z (age_hours now latest_dt) ++ "h "
   ++ str_of_Z (age_minutes now latest_dt) ++ "m") ∧
  (dt_instant now < dt_instant latest_dt → age_days now latest_dt < 0).
Proof.
  unfold age_str, age_hours, age_minutes, age_days, td_seconds, td_days.
  set (age := dt_instant now - dt_instant latest_dt).
  assert (dt_instant now < dt_instant latest_dt → age < 0) as Hneg
    by (unfold age; lia).
  clearbody age. repeat split; try (Z.div_mod_to_equations; lia).
  intros Hd. destruct (0 <? age / 86400000000) eqn:Hpos; [lia|done].
Qed.

(** X14. The freshness report reads the last reading in feed order
    and does not catch a malformed [created_at]: it raises exactly on
    a last reading that the merge skips, and the timestamp it returns
    otherwise is of a minute the merge has a record for. *)
Theorem freshness_reads_last_reading n T H :
  match freshness_latest [] T with
  | None => T = []
  | Some r =>
      ∃ f, last T = Some f ∧ r = parse_created_at f ∧
        match r with
        | Raise _ => ∀ es, ingest_temp n es f = Ok es
        | Ok ts =>
            ∃ out e, parseThingSpeakMerge n T H = Ok out ∧ e ∈ out ∧
              key_of e = round_min ts
        end
  end.
Proof.
  unfold freshness_latest. destruct T as [|f0 T0]; [done|].
  set (T := f0 :: T0) in *. cbv beta iota zeta. unfold py_last.
  destruct (last T) as [f|] eqn:Hlast; [|by apply last_None in Hlast].
  cbn [mbind res_bind]. exists f. do 2 (split; [done|]).
  destruct (parse_created_at f) as [ts|x] eqn:Hts.
  - destruct (one_record_keys n T H) as (out & Hout & Hk).
    exists out. apply last_Some_elem_of in Hlast.
    assert (round_min ts ∈ key_of <$> out) as Hin.
    { apply Hk, elem_of_app. left. unfold feed_keys.
      apply list_elem_of_omap. exists f. by rewrite Hts. }
    apply list_elem_of_fmap in Hin as (e & He & Hin). eauto.
  - intros es. unfold ingest_temp. by rewrite Hts.
Qed.

End FreshnessFacts.

(** * Beyond the claims: the wrapper of the data file *)

Lemma strip_prefix_at (pre rest : text) :
  123%N ∉ pre → strip_prefix (pre ++ 123%N :: rest) = 123%N :: rest.
Proof.
  induction pre as [|c pre IH]; intros Hpre; [done|].
  apply not_elem_of_cons in Hpre as [Hc Hpre]. simpl.
  destruct (c =? 123)%N eqn:Heq; [|by apply IH].
  apply N.eqb_eq in Heq. congruence.
Qed.

Lemma strip_semicolon_last (s : text) : strip_semicolon (s ++ [59%N]) = s.
Proof.
  induction s as [|c s IH]; [done|]. simpl.
  rewrite forallb_app. simpl. rewrite !andb_false_r. by rewrite IH.
Qed.

Lemma text_rstrip_keep p (s : text) (c : N) :
  p c = false → text_rstrip p (s ++ [c]) = (s ++ [c])%list.
Proof.
  intros Hc. induction s as [|a s IH]; simpl; [by rewrite Hc|].
  rewrite IH. by destruct s.
Qed.

Lemma text_rstrip_drop p (s : text) (c : N) :
  p c = true → text_rstrip p (s ++ [c]) = text_rstrip p s.
Proof.
  intros Hc. induction s as [|a s IH]; simpl; [by rewrite Hc|].
  by rewrite IH.
Qed.

Lemma text_index_at (pre rest : text) :
  123%N ∉ pre → text_index 123 (pre ++ 123%N :: rest) = Ok (length pre).
Proof.
  induction pre as [|c pre IH]; intros Hpre; [done|].
  apply not_elem_of_cons in Hpre as [Hc Hpre]. simpl.
  destruct (c =? 123)%N eqn:Heq.
  - apply N.eqb_eq in Heq. congruence.
  - by rewrite IH.
Qed.

Lemma join_lines_elem (lines : list text) (c : N) :
  c ∈ join_lines lines → c = 10%N ∨ ∃ line, line ∈ lines ∧ c ∈ line.
Proof.
  induction lines as [|line lines IH]; simpl.
  - intros Hc. by apply elem_of_nil in Hc.
  - destruct lines as [|line' lines].
    + intros Hc. right. exists line. split; [apply elem_of_cons; by left|done].
    + rewrite elem_of_app, elem_of_cons. intros [Hc|[Hc|Hc]].
      * right. exists line. split; [apply elem_of_cons; by left|done].
      * by left.
      * destruct (IH Hc) as [?|(l & Hl & Hcl)]; [by left|].
        right. exists l. split; [apply elem_of_cons; by right|done].
Qed.

(** What [write_js] puts before the JSON text has no brace. *)
Lemma write_js_split (lines : list text) (json_str : text) :
  (∀ line, line ∈ header_lines lines → 123%N ∉ line) →
  ∃ pre, (123%N ∉ pre) ∧
    write_js (join_lines (header_lines lines)) json_str =
    (pre ++ json_str ++ [59%N])%list.
Proof.
  intros Hlines. unfold write_js.
  set (header := join_lines (header_lines lines)).
  assert (123%N ∉ header) as Hheader.
  { intros Hin. apply join_lines_elem in Hin as [?|(l & Hl & Hin)]; [done|].
    by apply (Hlines l). }
  assert (123%N ∉ text_of "window.THINGSPEAK_DATA = ") as Hname.
  { rewrite list_elem_of_In. vm_compute. intuition discriminate. }
  exists ((match header with [] => [] | _ :: _ => header ++ [10%N] end)
          ++ text_of "window.THINGSPEAK_DATA = ")%list.
  split; [|by rewrite <- app_assoc].
  rewrite not_elem_of_app. split; [|done].
  destruct header; [apply not_elem_of_nil|].
  rewrite not_elem_of_app. split; [done|].
  apply not_elem_of_cons. split; [done|apply not_elem_of_nil].
Qed.

Lemma unwrap_js_written (lines : list text) (body : text) :
  (∀ line, line ∈ header_lines lines → 123%N ∉ line) →
  unwrap_js (write_js (join_lines (header_lines lines)) (123%N :: body)) =
  123%N :: body.
Proof.
  intros Hlines.
  destruct (write_js_split lines (123%N :: body) Hlines) as (pre & Hpre & ->).
  unfold unwrap_js. change ((123%N :: body) ++ [59%N])%list
    with (123%N :: (body ++ [59%N]))%list.
  rewrite strip_prefix_at by done.
  change (123%N :: (body ++ [59%N]))%list with ((123%N :: body) ++ [59%N])%list.
  apply strip_semicolon_last.
Qed.

(** X15. What the injector writes, the parser reads back: when no
    comment line kept as header holds a brace and the JSON text starts
    with one, lines 12-13 of [debug_parse.py] cut exactly the JSON text
    out of the file that lines 100-101 of the injector compose,
    whatever else the JSON text holds. *)
Theorem js_wrapper_round_trip (lines : list text) (body : text) :
  (∀ line, line ∈ header_lines lines → 123%N ∉ line) →
  Forall (λ line, is_comment_line line = true) (header_lines lines) ∧
  unwrap_js (write_js (join_lines (header_lines lines)) (123%N :: body)) =
  123%N :: body.
Proof.
  intros Hlines. split; [|by apply unwrap_js_written].
  clear Hlines. induction lines as [|line lines IH]; simpl; [constructor|].
  destruct (is_comment_line line) eqn:Hline; by constructor.
Qed.

(** X16. The freshness report reads the same file: when moreover the
    JSON text ends with a closing brace, lines 28-29 of
    [check_freshness.py] find the first brace and return the JSON text
    too, so both readers hand the same text to [json.loads]. *)
Theorem freshness_unwraps_the_same (lines : list text) (inner : text) :
  (∀ line, line ∈ header_lines lines → 123%N ∉ line) →
  let json_str := (123%N :: (inner ++ [125%N]))%list in
  let content := write_js (join_lines (header_lines lines)) json_str in
  unwrap_freshness content = Ok json_str ∧
  unwrap_freshness content = Ok (unwrap_js content).
Proof.
  intros Hlines json_str content.
  assert (unwrap_freshness content = Ok json_str) as Hfresh.
  { unfold content.
    destruct (write_js_split lines json_str Hlines) as (pre & Hpre & ->).
    unfold unwrap_freshness, json_str.
    change ((123%N :: (inner ++ [125%N])) ++ [59%N])%list
      with (123%N :: ((inner ++ [125%N]) ++ [59%N]))%list.
    rewrite text_index_at by done. cbn [mbind res_bind].
    rewrite drop_app_length.
    change (123%N :: ((inner ++ [125%N]) ++ [59%N]))%list
      with ((123%N :: (inner ++ [125%N])) ++ [59%N])%list.
    rewrite text_rstrip_keep by done.
    rewrite text_rstrip_drop by done.
    change (123%N :: (inner ++ [125%N]))%list
      with ((123%N :: inner) ++ [125%N])%list.
    by rewrite text_rstrip_keep. }
  split; [done|]. rewrite Hfresh. f_equal. symmetry.
  by apply unwrap_js_written.
Qed.

(** * The further theorems at the sample feeds *)

(** The later packed reading leaves the record of 10:00 alone. *)
Lemma other_keys_untouched_witness :
  parse_created_at later_packed_reading = Ok stamp_10_05_00 ∧
  round_min stamp_10_05_00 ≠ round_min stamp_10_00_00 ∧
  ∃ es1 es2,
    ingest_temp 5 packed_mapping later_packed_reading = Ok es1 ∧
    dict_get es1 (round_min stamp_10_00_00)
      = dict_get packed_mapping (round_min stamp_10_00_00) ∧
    ingest_hum 5 packed_mapping later_packed_reading = Ok es2 ∧
    dict_get es2 (round_min stamp_10_00_00)
      = dict_get packed_mapping (round_min stamp_10_00_00).
Proof.
  split; [vm_compute; reflexivity|]. split; [vm_compute; discriminate|].
  apply (other_keys_untouched 5 packed_mapping later_packed_reading
           stamp_10_05_00 (round_min stamp_10_00_00)).
  - vm_compute; reflexivity.
  - vm_compute; discriminate.
Defined.

(** A flag of sensor 1 that is [1], through a blank packed reading and
    a humidity reading of the same minute *)
Lemma set_flags_only_rise_witness :
  dict_get flagged_mapping (round_min stamp_10_00_00) = Ok flagged_record ∧
  e_ok flagged_record !! 1%nat = Some 1 ∧
  ∃ es1 e1 es2 e2,
    for_each [blank_packed_reading] (ingest_temp 5) flagged_mapping = Ok es1 ∧
    dict_get es1 (round_min stamp_10_00_00) = Ok e1 ∧
    e_ok e1 !! 1%nat = Some 1 ∧
    for_each [humidity_reading] (ingest_hum 5) es1 = Ok es2 ∧
    dict_get es2 (round_min stamp_10_00_00) = Ok e2 ∧
    (e_ok e2 !! 1%nat = Some 1 ∨ e_ok e2 !! 1%nat = Some 1) ∧
    e_ok (fill 5 e2) !! 1%nat = e_ok e2 !! 1%nat.
Proof.
  assert (dict_get flagged_mapping (round_min stamp_10_00_00)
          = Ok flagged_record) as Hget.
  { unfold flagged_mapping, dict_get. by rewrite Z.eqb_refl. }
  assert (e_ok flagged_record !! 1%nat = Some 1) as Hflag
    by apply lookup_insert_eq.
  split; [exact Hget|]. split; [exact Hflag|].
  apply (set_flags_only_rise 5 [blank_packed_reading] [humidity_reading]
           flagged_mapping (round_min stamp_10_00_00) flagged_record 1 1
           Hget Hflag).
Defined.

(** The packed reading is the last temperature reading of 10:00. *)
Lemma last_temperature_wins_witness :
  parse_created_at packed_reading = Ok stamp_10_00_00 ∧
  off_key (round_min stamp_10_00_00) [later_packed_reading] ∧
  (1 ≤ 1 ≤ if csv_detect (py_get packed_reading "field2")
           then 5 else Nat.min 5 8)%nat ∧
  ∃ out e v,
    parseThingSpeakMerge 5
      ([blank_packed_reading] ++ packed_reading :: [later_packed_reading])
      [humidity_reading] = Ok out ∧
    e ∈ out ∧ key_of e = round_min stamp_10_00_00 ∧
    temp_value packed_reading 1 = Ok v ∧ e_t e !! 1%nat = Some v.
Proof.
  assert (off_key (B:=CPython.runtime) (round_min stamp_10_00_00)
            [later_packed_reading]) as Hoff.
  { intros f ts Hf Hts. apply list_elem_of_singleton in Hf as ->.
    assert (ts = stamp_10_05_00) as ->
      by (vm_compute in Hts; by injection Hts as <-).
    vm_compute; discriminate. }
  split; [vm_compute; reflexivity|]. split; [exact Hoff|].
  split; [vm_compute; lia|].
  apply (last_temperature_wins 5 [blank_packed_reading] packed_reading
           [later_packed_reading] [humidity_reading] stamp_10_00_00 1).
  - vm_compute; reflexivity.
  - exact Hoff.
  - vm_compute; lia.
Defined.

(** The humidity reading is the last of its minute. *)
Lemma last_humidity_wins_witness :
  parse_created_at humidity_reading = Ok stamp_10_00_20 ∧
  off_key (round_min stamp_10_00_20) [] ∧
  (1 ≤ 1 ≤ Nat.min 5 8)%nat ∧
  ∃ out e v,
    parseThingSpeakMerge 5 [packed_reading] ([] ++ humidity_reading :: [])
      = Ok out ∧
    e ∈ out ∧ key_of e = round_min stamp_10_00_20 ∧
    num_parse (py_get humidity_reading (field_key 1)) = Ok v ∧
    e_rh e !! 1%nat = Some v.
Proof.
  assert (off_key (B:=CPython.runtime) (round_min stamp_10_00_20) [])
    as Hoff.
  { intros f ts Hf. by apply elem_of_nil in Hf. }
  split; [vm_compute; reflexivity|]. split; [exact Hoff|].
  split; [vm_compute; lia|].
  apply (last_humidity_wins 5 [packed_reading] [] humidity_reading []
           stamp_10_00_20 1).
  - vm_compute; reflexivity.
  - exact Hoff.
  - vm_compute; lia.
Defined.

(** Ten sensors and a legacy feed: sensors 9 and 10 stay empty. *)
Lemma legacy_feeds_cap_at_eight_witness :
  (∀ f, f ∈ [zero_legacy_reading] →
     csv_detect (py_get f "field2") = false) ∧
  ∃ out, parseThingSpeakMerge (B:=CPython.runtime) 10
           [zero_legacy_reading] [humidity_reading] = Ok out ∧
    ∀ e s, e ∈ out → (8 < s ≤ 10)%nat →
      e_t e !! s = Some None ∧ e_rh e !! s = Some None ∧
      e_ok e !! s = Some 0.
Proof.
  assert (∀ f, f ∈ [zero_legacy_reading] →
            csv_detect (py_get f "field2") = false) as Hlegacy.
  { intros f Hf. by apply list_elem_of_singleton in Hf as ->. }
  split; [exact Hlegacy|].
  apply (legacy_feeds_cap_at_eight 10 [zero_legacy_reading]
           [humidity_reading] Hlegacy).
Defined.

(** The window of two readings five minutes apart *)
Lemma week_window_is_recent_tail_witness :
  ∃ out,
    parseThingSpeakMerge 5 [packed_reading; later_packed_reading] []
      = Ok out ∧
    match week_window (D:=cpython_timedelta) out with
    | WindowIndexError => out = []
    | WindowOverflowError => out ≠ []
    | Window filtered =>
        ∃ older latest,
          out = (older ++ filtered)%list ∧
          last out = Some latest ∧ last filtered = Some latest ∧
          (∀ e, e ∈ older →
             dt_instant (timestamp e)
             < dt_instant (timestamp latest) - 604800000000) ∧
          (∀ e, e ∈ filtered →
             dt_instant (timestamp latest) - 604800000000
             ≤ dt_instant (timestamp e) ≤ dt_instant (timestamp latest))
    end.
Proof.
  apply (week_window_is_recent_tail (D:=cpython_timedelta) 5
           [packed_reading; later_packed_reading] []).
Defined.

(** The sample file: its one comment line has no brace. *)
Lemma js_wrapper_round_trip_witness :
  (∀ line, line ∈ header_lines sample_lines → 123%N ∉ line) ∧
  Forall (λ line, is_comment_line line = true) (header_lines sample_lines) ∧
  unwrap_js (write_js (join_lines (header_lines sample_lines))
               (123%N :: (sample_inner ++ [125%N]))) =
  123%N :: (sample_inner ++ [125%N]).
Proof.
  assert (∀ line, line ∈ header_lines sample_lines → 123%N ∉ line) as Hlines.
  { intros line Hline.
    change (line ∈ [text_of "// Downloaded: 2026-02-25 10:06"]) in Hline.
    apply list_elem_of_singleton in Hline as ->.
    rewrite list_elem_of_In. vm_compute. intuition discriminate. }
  split; [exact Hlines|].
  apply (js_wrapper_round_trip sample_lines (sample_inner ++ [125%N]) Hlines).
Defined.

Lemma freshness_unwraps_the_same_witness :
  (∀ line, line ∈ header_lines sample_lines → 123%N ∉ line) ∧
  unwrap_freshness
    (write_js (join_lines (header_lines sample_lines))
       (123%N :: (sample_inner ++ [125%N]))) =
    Ok (123%N :: (sample_inner ++ [125%N])) ∧
  unwrap_freshness
    (write_js (join_lines (header_lines sample_lines))
       (123%N :: (sample_inner ++ [125%N]))) =
    Ok (unwrap_js
          (write_js (join_lines (header_lines sample_lines))
             (123%N :: (sample_inner ++ [125%N])))).
Proof.
  assert (∀ line, line ∈ header_lines sample_lines → 123%N ∉ line) as Hlines.
  { intros line Hline.
    change (line ∈ [text_of "// Downloaded: 2026-02-25 10:06"]) in Hline.
    apply list_elem_of_singleton in Hline as ->.
    rewrite list_elem_of_In. vm_compute. intuition discriminate. }
  split; [exact Hlines|].
  apply (freshness_unwraps_the_same sample_lines sample_inner Hlines).
Defined.
